(** * Hacker News scraper robot (python/hn_scraper.py)

    A shallow embedding of [search_hn_posts], [scrape_hn_comments] and
    [main], and the properties of the search controller, the thread
    traverser and the report that the specification states.

    Conventions of the embedding:
    - a Python [str] is a list of code points;
    - the [re] module is an interface ([Regex]);
    - the browser is a function from URLs to what a navigation to that URL
      does: it raises, or it loads a page, on which the wait for an
      element of a class raises or the elements of that class are found;
      the site answers a URL the same way throughout a run;
    - a computation yields the sequence of outward calls it made
      ([driver.get], [eywa.report], ...) and either a value or the
      exception that left it; the calls on the task client ([eywa.*]) and
      [driver.quit] do not raise;
    - logging ([eywa.info], [eywa.warn]) and pauses ([time.sleep]) have no
      influence on any value and are left out of the event sequence. *)

From Stdlib Require Import String Ascii DecimalString DecimalNat.
From Stdlib Require Import List ZArith NArith Arith Bool Lia.
From Equations Require Import Equations.
Import ListNotations.

(** ** Python strings *)

Definition codepoint := N.
Definition str := list codepoint.

(** An ASCII literal as a Python string. *)
Definition lit (s : string) : str := map N_of_ascii (list_ascii_of_string s).
Arguments lit s%_string.

(** [str(n)] for a non-negative integer, as an f-string prints it. *)
Definition str_of_nat (n : nat) : str :=
  lit (NilEmpty.string_of_uint (Nat.to_uint n)).

(** Truthiness of an optional string: [None] and [''] are false. *)
Definition truthy (o : option str) : bool :=
  match o with
  | Some (_ :: _) => true
  | _ => false
  end.

(** UTF-8 encoding of a code point and of a string (bytes as [N]). *)
Definition utf8_char (c : codepoint) : list N :=
  if (c <? 128)%N then [c]
  else if (c <? 2048)%N then
    [N.lor 192 (N.shiftr c 6); N.lor 128 (N.land c 63)]
  else if (c <? 65536)%N then
    [N.lor 224 (N.shiftr c 12); N.lor 128 (N.land (N.shiftr c 6) 63);
     N.lor 128 (N.land c 63)]
  else
    [N.lor 240 (N.shiftr c 18); N.lor 128 (N.land (N.shiftr c 12) 63);
     N.lor 128 (N.land (N.shiftr c 6) 63); N.lor 128 (N.land c 63)].

Definition utf8 (s : str) : list N := flat_map utf8_char s.

(** ** The [re] module, as far as the robot uses it *)

Class Regex := {
  Pattern : Type;
  (** [re.compile(text, re.IGNORECASE)]; [inl msg] when [re.error] is raised *)
  re_compile : str -> str + Pattern;
  (** [pattern.search(text)]: [group(0)] of the match, [None] without one *)
  pattern_search : Pattern -> str -> option str;
  (** [re.search(r'(\d+) points?', t)], then [int(group(1))] *)
  search_points : str -> option nat;
  (** [re.search(r'(\d+) comments?', t)], then [int(group(1))] *)
  search_comments : str -> option nat;
  (** [re.search(r'(\d+ \w+ ago)', t)], then [group(1)] *)
  search_time : str -> option str
}.

(** ** What the browser shows *)

(** An [<a>] element: its text and its [href] attribute. *)
Record Anchor := { a_text : str; a_href : option str }.

(** The element of class [Story_title]; [find_element(By.TAG_NAME, "a")]
    raises when it holds no link. *)
Record TitleElem := { title_anchor : option Anchor }.

(** One element of class [Story].  A lookup that raises is [None]. *)
Record Story := {
  Story_title : option TitleElem;
  Story_meta : option str;
  (** [find_element(By.PARTIAL_LINK_TEXT, "comment")] *)
  comment_link : option Anchor
}.

(** The element of class [comhead]: the texts of its [hnuser] elements. *)
Record Comhead := { hnuser : list str }.

(** One element of class [comment]. *)
Record Comment := { comment_text : str; comhead : option Comhead }.

(** Why [wait.until(presence_of_element_located ...)] raised: no such
    element appeared within the ten seconds, or the wait itself failed. *)
Inductive wait_failure := WaitTimeout | WaitError.

(** Elements of one class on a page: the wait for the first one raises,
    or [find_elements] returns them in document order. *)
Inductive located (A : Type) :=
| NotLocated (why : wait_failure)
| Located (elems : list A).
Arguments NotLocated {A} why.
Arguments Located {A} elems.

Record Dom := { dom_Story : located Story; dom_comment : located Comment }.

(** [driver.get(url)]: raises, or loads a page. *)
Inductive navigation :=
| NavError (msg : str)
| NavOk (page : Dom).

(** ** Results and the report *)

Record EntryMatch := {
  title : str;
  url : option str;
  hn_url : option str;
  points : nat;
  comments : nat;
  time : str;
  match_type : str;
  matched_text : str
}.

Record CommentMatch := {
  story_title : str;
  story_url : str;
  c_comment_text : str;
  user : str;
  c_matched_text : str
}.

Record Report := {
  r_search_term : str;
  r_regex_pattern : str;
  post_matches : list EntryMatch;
  comment_matches : list CommentMatch;
  total_matches : nat;
  scraped_at : str;
  mode : str
}.

(** ** Outward calls and exceptions *)

Inductive status := PROCESSING | SUCCESS | ERROR.

Inductive event :=
| UpdateTask (s : status)
| DriverGet (url : str)
| EywaReport (msg : str) (data : Report)
| EywaError (msg : str)
| CloseTask (s : status)
| DriverQuit.

Inductive exn :=
| re_error (msg : str)
| WebDriverException (msg : str).

(** [str(e)] *)
Definition exn_str (e : exn) : str :=
  match e with
  | re_error msg => msg
  | WebDriverException msg => msg
  end.

Inductive result (A : Type) :=
| Return (a : A)
| Raise (e : exn).
Arguments Return {A} a.
Arguments Raise {A} e.

(** A computation: the calls it made, in order, and how it ended. *)
Definition run (A : Type) : Type := list event * result A.

Definition ret {A} (a : A) : run A := ([], Return a).
Definition raise {A} (e : exn) : run A := ([], Raise e).
Definition emit (ev : event) : run unit := ([ev], Return tt).

Definition bind {A B} (c : run A) (k : A -> run B) : run B :=
  match c with
  | (tr, Return a) => let (tr', r) := k a in (tr ++ tr', r)
  | (tr, Raise e) => (tr, Raise e)
  end.

(** [try: c  except: h(e)] *)
Definition try_except {A} (c : run A) (h : exn -> run A) : run A :=
  match c with
  | (tr, Raise e) => let (tr', r) := h e in (tr ++ tr', r)
  | ok => ok
  end.

Declare Scope run_scope.
Delimit Scope run_scope with run.
Notation "x <- c ;; k" := (bind c (fun x => k))
  (at level 61, c at next level, right associativity) : run_scope.
Notation "c ;; k" := (bind c (fun _ => k))
  (at level 61, right associativity) : run_scope.
Local Open Scope run_scope.

Definition trace {A} (c : run A) : list event := fst c.
Definition outcome {A} (c : run A) : result A := snd c.

(** The URLs of the [driver.get] calls of a trace: the fetch counter is
    the length of this list. *)
Definition fetches (tr : list event) : list str :=
  flat_map (fun ev => match ev with DriverGet u => [u] | _ => [] end) tr.

Definition reports (tr : list event) : list Report :=
  flat_map (fun ev => match ev with EywaReport _ r => [r] | _ => [] end) tr.

Definition errors (tr : list event) : list str :=
  flat_map (fun ev => match ev with EywaError m => [m] | _ => [] end) tr.

Definition closes (tr : list event) : list status :=
  flat_map (fun ev => match ev with CloseTask s => [s] | _ => [] end) tr.

(** A trace made of [driver.get] calls only. *)
Definition only_fetches (tr : list event) : Prop :=
  tr = map DriverGet (fetches tr).

(** ** The robot *)

(** A value together with the equation that names it, to keep the test of
    a loop guard at hand in the branch it selects. *)
Definition inspect {A} (a : A) : {b : A | a = b} := exist _ a eq_refl.

Inductive loop_ctl (A : Type) :=
| Break (a : A)
| Continue (a : A).
Arguments Break {A} a.
Arguments Continue {A} a.

Notation "x <-? o ;; k" := (match o with Some x => k | None => None end)
  (at level 61, o at next level, right associativity, only parsing).

Section Robot.

Context {RE : Regex}.

(** What a navigation to each URL shows during the run. *)
Variable site : str -> navigation.

(** [driver.get(url)] *)
Definition driver_get (url : str) : run Dom :=
  emit (DriverGet url) ;;
  match site url with
  | NavError msg => raise (WebDriverException msg)
  | NavOk page => ret page
  end.

(** [re.compile(regex_pattern, re.IGNORECASE)] *)
Definition compile (regex_pattern : str) : run Pattern :=
  match re_compile regex_pattern with
  | inl msg => raise (re_error msg)
  | inr pattern => ret pattern
  end.

(** *** [search_hn_posts] *)

Definition search_url (search_term : str) (page : nat) : str :=
  lit "https://hn.algolia.com/?query=" ++ search_term
    ++ lit "&sort=byDate&page=" ++ str_of_nat (page - 1).

(** The body of the [try] of one story (lines 80-115), up to the
    construction of [match].  [None]: an exception was raised (the
    [except] clause continues with the next story); [Some None]: the title
    does not match; [Some (Some m)]: the match to append. *)
Definition story_match (pattern : Pattern) (story : Story)
  : option (option EntryMatch) :=
  title_elem <-? Story_title story ;;
  link_elem <-? title_anchor title_elem ;;
  let title := a_text link_elem in
  let url := a_href link_elem in
  meta_text <-? Story_meta story ;;
  let points := match search_points meta_text with Some n => n | None => 0 end in
  let comments := match search_comments meta_text with Some n => n | None => 0 end in
  let time_ago :=
    match search_time meta_text with Some t => t | None => lit "unknown" end in
  match pattern_search pattern title with
  | Some matched =>
      hn_link <-? (if 0 <? comments
                   then option_map a_href (comment_link story)
                   else Some None) ;;
      Some (Some {| title := title; url := url; hn_url := hn_link;
                    points := points; comments := comments; time := time_ago;
                    match_type := lit "title"; matched_text := matched |})
  | None => Some None
  end.

(** [for story in stories: ...] with its [break] (lines 78-124). *)
Fixpoint scan_stories (pattern : Pattern) (max_results : Z)
    (stories : list Story) (matches : list EntryMatch) : list EntryMatch :=
  match stories with
  | [] => matches
  | story :: rest =>
      match story_match pattern story with
      | Some (Some m) =>
          let matches := matches ++ [m] in
          if (Z.of_nat (length matches) >=? max_results)%Z then matches
          else scan_stories pattern max_results rest matches
      | _ => scan_stories pattern max_results rest matches
      end
  end.

(** One turn of the [while] loop (lines 61-127). *)
Definition search_page (pattern : Pattern) (search_term : str)
    (max_results : Z) (page : nat) (matches : list EntryMatch)
  : run (loop_ctl (list EntryMatch)) :=
  dom <- driver_get (search_url search_term page) ;;
  match dom_Story dom with
  | NotLocated _ => ret (Break matches)
  | Located stories =>
      ret (Continue (scan_stories pattern max_results stories matches))
  end.

(** [while len(matches) < max_results and page <= 5] *)
Definition search_guard (max_results : Z) (page : nat)
    (matches : list EntryMatch) : bool :=
  (Z.of_nat (length matches) <? max_results)%Z && (page <=? 5).

Equations? search_loop (pattern : Pattern) (search_term : str)
    (max_results : Z) (page : nat) (matches : list EntryMatch)
  : run (list EntryMatch) by wf (6 - page) lt :=
  search_loop pattern search_term max_results page matches
    with inspect (search_guard max_results page matches) := {
    | exist _ true Hguard =>
        c <- search_page pattern search_term max_results page matches ;;
        match c with
        | Break matches => ret matches
        | Continue matches =>
            search_loop pattern search_term max_results (page + 1) matches
        end
    | exist _ false _ => ret matches }.
Proof.
  unfold search_guard in Hguard.
  apply andb_true_iff in Hguard as [_ Hpage].
  apply Nat.leb_le in Hpage. clear search_loop.
  do 6 (destruct page as [|page]; [simpl; lia|]). lia.
Qed.

Definition search_hn_posts (search_term regex_pattern : str)
    (max_results : Z) : run (list EntryMatch) :=
  pattern <- compile regex_pattern ;;
  search_loop pattern search_term max_results 1 [].

(** *** [scrape_hn_comments] *)

(** The text stored for a comment (line 162). *)
Definition display_text (text : str) : str :=
  if 200 <? length text then firstn 200 text ++ lit "..." else text.

(** The body of the [try] of one comment (lines 152-165); the three
    results are those of [story_match]. *)
Definition comment_match (pattern : Pattern) (story_url story_title : str)
    (comment : Comment) : option (option CommentMatch) :=
  let text := comment_text comment in
  match pattern_search pattern text with
  | Some matched =>
      meta <-? comhead comment ;;
      let user :=
        match hnuser meta with u :: _ => u | [] => lit "unknown" end in
      Some (Some {| story_title := story_title; story_url := story_url;
                    c_comment_text := display_text text; user := user;
                    c_matched_text := matched |})
  | None => Some None
  end.

(** [for comment in comments[:50]: ...] *)
Fixpoint scan_comments (pattern : Pattern) (story_url story_title : str)
    (comments : list Comment) (comment_matches : list CommentMatch)
  : list CommentMatch :=
  match comments with
  | [] => comment_matches
  | comment :: rest =>
      match comment_match pattern story_url story_title comment with
      | Some (Some m) =>
          scan_comments pattern story_url story_title rest
            (comment_matches ++ [m])
      | _ => scan_comments pattern story_url story_title rest comment_matches
      end
  end.

Definition scrape_hn_comments (story_url regex_pattern story_title : str)
  : run (list CommentMatch) :=
  dom <- driver_get story_url ;;
  pattern <- compile regex_pattern ;;
  match dom_comment dom with
  | NotLocated _ => ret []
  | Located comments =>
      ret (scan_comments pattern story_url story_title
             (firstn 50 comments) [])
  end.

(** *** The comment pass of [main] (lines 208-216) *)

Fixpoint check_posts (regex_pattern : str) (posts : list EntryMatch)
    (comment_matches : list CommentMatch) : run (list CommentMatch) :=
  match posts with
  | [] => ret comment_matches
  | m :: rest =>
      match hn_url m with
      | Some story_url =>
          if truthy (Some story_url) && (0 <? comments m) then
            found <- scrape_hn_comments story_url regex_pattern (title m) ;;
            check_posts regex_pattern rest (comment_matches ++ found)
          else check_posts regex_pattern rest comment_matches
      | None => check_posts regex_pattern rest comment_matches
      end
  end.

End Robot.

(** *** [main] *)

(** The [data] of the task: each key may be missing. *)
Record InputData := {
  in_search_term : option str;
  in_regex_pattern : option str;
  in_max_results : option Z;
  in_check_comments : option bool;
  in_headless : option bool
}.

(** Everything a run depends on. *)
Record World := {
  task_data : InputData;
  (** [Some msg]: starting the browser in [setup_driver] raises *)
  chrome_failure : option str;
  site : str -> navigation;
  (** [datetime.now().isoformat()] *)
  now_isoformat : str
}.

(** [d.get(key, default)] *)
Definition dict_get {A} (o : option A) (default : A) : A :=
  match o with Some a => a | None => default end.

Definition nonempty {A} (l : list A) : bool :=
  match l with [] => false | _ => true end.

Section Main.

Context {RE : Regex}.

Definition setup_driver (w : World) (headless : bool) : run unit :=
  match chrome_failure w with
  | Some msg => raise (WebDriverException msg)
  | None => ret tt
  end.

(** The optional comment pass (lines 205-216). *)
Definition comment_pass (w : World) (regex_pattern : str)
    (check_comments : bool) (post_matches : list EntryMatch)
  : run (list CommentMatch) :=
  if check_comments && nonempty post_matches
  then check_posts (site w) regex_pattern (firstn 5 post_matches) []
  else ret [].

(** The report dictionary (lines 219-227). *)
Definition prepare_report (w : World) (search_term regex_pattern : str)
    (headless : bool) (post_matches : list EntryMatch)
    (comment_matches : list CommentMatch) : Report :=
  {| r_search_term := search_term;
     r_regex_pattern := regex_pattern;
     post_matches := post_matches;
     comment_matches := comment_matches;
     total_matches := length post_matches + length comment_matches;
     scraped_at := now_isoformat w;
     mode := if headless then lit "headless" else lit "visible" |}.

(** The [try] block of [main] (lines 179-253). *)
Definition main_try (w : World) : run unit :=
  let input_data := task_data w in
  let search_term := dict_get (in_search_term input_data) (lit "EYWA") in
  let regex_pattern :=
    dict_get (in_regex_pattern input_data) (lit "EYWA|eywa") in
  let max_results := dict_get (in_max_results input_data) 10%Z in
  let check_comments := dict_get (in_check_comments input_data) false in
  let headless := dict_get (in_headless input_data) false in
  emit (UpdateTask PROCESSING) ;;
  setup_driver w headless ;;
  post_matches <-
    search_hn_posts (site w) search_term regex_pattern max_results ;;
  comment_matches <-
    comment_pass w regex_pattern check_comments post_matches ;;
  let data :=
    prepare_report w search_term regex_pattern headless
                   post_matches comment_matches in
  emit (EywaReport (lit "HN scraping complete") data) ;;
  emit (CloseTask SUCCESS).

(** The [except Exception as e] clause of [main] (lines 255-257). *)
Definition main_except (e : exn) : run unit :=
  emit (EywaError (lit "Robot failed: " ++ exn_str e)) ;;
  emit (CloseTask ERROR).

(** The [finally] clause: [driver] is set once [setup_driver] returned. *)
Definition main_finally (w : World) : list event :=
  match chrome_failure w with
  | None => [DriverQuit]
  | Some _ => []
  end.

(** A run of the robot: the calls it makes on its collaborators. *)
Definition main (w : World) : list event :=
  trace (try_except (main_try w) main_except) ++ main_finally w.

End Main.

(** ** A small regular-expression engine to run scenarios

    Patterns without metacharacters, matched as [re.IGNORECASE] does on
    ASCII text; a pattern with an unbalanced parenthesis does not compile.
    The three metadata searches read ASCII digits and word characters. *)

Module Literal.

Definition lower (c : codepoint) : codepoint :=
  if ((65 <=? c) && (c <=? 90))%N then (c + 32)%N else c.

Fixpoint starts_with (p t : str) : bool :=
  match p, t with
  | [], _ => true
  | a :: p', b :: t' => (lower a =? lower b)%N && starts_with p' t'
  | _ :: _, [] => false
  end.

(** The leftmost occurrence of [p] in [t], as it is spelled in [t]. *)
Fixpoint find (p t : str) : option str :=
  if starts_with p t then Some (firstn (length p) t)
  else match t with
       | [] => None
       | _ :: t' => find p t'
       end.

(** Parenthesis depth after reading the text; [None] once a [)] closes
    nothing. *)
Fixpoint depth (s : str) (d : nat) : option nat :=
  match s with
  | [] => Some d
  | c :: s' =>
      if (c =? 40)%N then depth s' (S d)
      else if (c =? 41)%N then
        match d with 0 => None | S d' => depth s' d' end
      else depth s' d
  end.

Definition compile (text : str) : str + str :=
  match depth text 0 with
  | Some 0 => inr text
  | Some (S _) => inl (lit "missing ), unterminated subpattern")
  | None => inl (lit "unbalanced parenthesis")
  end.

Definition is_digit (c : codepoint) : bool := ((48 <=? c) && (c <=? 57))%N.

Definition is_word (c : codepoint) : bool :=
  is_digit c || ((97 <=? lower c) && (lower c <=? 122))%N || (c =? 95)%N.

(** The longest prefix of characters of one class, and what follows. *)
Fixpoint span (f : codepoint -> bool) (t : str) : str * str :=
  match t with
  | c :: t' =>
      if f c then let (a, b) := span f t' in (c :: a, b) else ([], t)
  | [] => ([], [])
  end.

Definition int (digits : str) : nat :=
  fold_left (fun n c => 10 * n + N.to_nat (c - 48)) digits 0.

(** [(\d+) word] at the start of [t]. *)
Definition count_here (word t : str) : option nat :=
  match span is_digit t with
  | ((_ :: _) as digits, rest) =>
      if starts_with (32%N :: word) rest then Some (int digits) else None
  | _ => None
  end.

Fixpoint search_count (word t : str) : option nat :=
  match count_here word t with
  | Some n => Some n
  | None => match t with
            | [] => None
            | _ :: t' => search_count word t'
            end
  end.

(** [(\d+ \w+ ago)] at the start of [t]. *)
Definition ago_here (t : str) : option str :=
  match span is_digit t with
  | ((_ :: _) as digits, sp :: rest) =>
      if (sp =? 32)%N then
        match span is_word rest with
        | ((_ :: _) as word, rest') =>
            if starts_with (lit " ago") rest'
            then Some (digits ++ [sp] ++ word ++ firstn 4 rest')
            else None
        | _ => None
        end
      else None
  | _ => None
  end.

Fixpoint search_ago (t : str) : option str :=
  match ago_here t with
  | Some m => Some m
  | None => match t with
            | [] => None
            | _ :: t' => search_ago t'
            end
  end.

#[export] Instance regex : Regex := {|
  Pattern := str;
  re_compile := compile;
  pattern_search := find;
  search_points := search_count (lit "point");
  search_comments := search_count (lit "comment");
  search_time := search_ago
|}.

End Literal.

(** ** Scenarios: pages of a site and task inputs to run the robot on *)

Module Scenario.

Import Literal.

Fixpoint str_eqb (a b : str) : bool :=
  match a, b with
  | [], [] => true
  | x :: a', y :: b' => (x =? y)%N && str_eqb a' b'
  | _, _ => false
  end.

(** A page on which neither a story nor a comment ever appears. *)
Definition blank : Dom :=
  {| dom_Story := NotLocated WaitTimeout;
     dom_comment := NotLocated WaitTimeout |}.

Definition results (stories : list Story) : Dom :=
  {| dom_Story := Located stories; dom_comment := NotLocated WaitTimeout |}.

Definition thread (comments : list Comment) : Dom :=
  {| dom_Story := NotLocated WaitTimeout; dom_comment := Located comments |}.

(** A site given by a table; every other URL shows a blank page. *)
Fixpoint pages (table : list (str * navigation)) (url : str) : navigation :=
  match table with
  | [] => NavOk blank
  | (u, nav) :: table' => if str_eqb u url then nav else pages table' url
  end.

Definition linked (u : string) : option string := Some u.

(** A well-formed story: a title link, a metadata line, and the link to
    its discussion when [discussion] is given. *)
Definition entry (title href meta : string) (discussion : option string)
  : Story :=
  {| Story_title :=
       Some {| title_anchor :=
                 Some {| a_text := lit title; a_href := Some (lit href) |} |};
     Story_meta := Some (lit meta);
     comment_link :=
       option_map (fun u => {| a_text := lit "comments";
                               a_href := Some (lit u) |}) discussion |}.

Definition remark (text author : string) : Comment :=
  {| comment_text := lit text;
     comhead := Some {| hnuser := [lit author] |} |}.

Definition input (search_term regex_pattern : string) (max_results : Z)
    (check_comments : bool) : InputData :=
  {| in_search_term := Some (lit search_term);
     in_regex_pattern := Some (lit regex_pattern);
     in_max_results := Some max_results;
     in_check_comments := Some check_comments;
     in_headless := Some true |}.

Definition world (data : InputData) (table : list (str * navigation))
  : World :=
  {| task_data := data; chrome_failure := None; site := pages table;
     now_isoformat := lit "2025-01-01T00:00:00" |}.

Definition page_url (search_term : string) (page : nat) : str :=
  search_url (lit search_term) page.

(** Scenario B of the specification: a budget of two, and a first page
    with four matching entries among five. *)
Definition budget_site : list (str * navigation) :=
  [(page_url "robots" 1,
    NavOk (results
      [entry "Robot one" "http://a/1" "1 point | 2 hours ago | 0 comments" None;
       entry "Unrelated" "http://a/2" "7 points | 2 hours ago | 1 comment" None;
       entry "ROBOT two" "http://a/3" "2 points | 3 hours ago | 0 comments" None;
       entry "robot three" "http://a/4" "3 points | 4 hours ago | 0 comments" None;
       entry "A robot four" "http://a/5" "4 points | 5 hours ago | 0 comments" None]));
   (page_url "robots" 2,
    NavOk (results
      [entry "Robot five" "http://a/6" "5 points | 1 day ago | 0 comments" None]))].

Definition budget_world : World :=
  world (input "robots" "robot" 2 false) budget_site.

(** A first page with two matching entries that have discussions, and a
    second page that is given per scenario. *)
Definition why_eywa_story : Story :=
  entry "Why eywa" "http://b/3" "5 points | 2 hours ago | 0 comments"
        (linked "http://hn/3").

Definition first_page : navigation :=
  NavOk (results
    [entry "EYWA released" "http://b/1" "10 points | 1 hour ago | 4 comments"
       (linked "http://hn/1");
     entry "Nothing here" "http://b/2" "1 point | 1 hour ago | 0 comments"
       (linked "http://hn/2");
     why_eywa_story;
     entry "eywa robots" "http://b/4" "8 points | 3 hours ago | 2 comments"
       (linked "http://hn/4")]).

Definition second_page_fails (nav : navigation) : list (str * navigation) :=
  [(page_url "EYWA" 1, first_page); (page_url "EYWA" 2, nav);
   (page_url "EYWA" 3,
    NavOk (results
      [entry "eywa again" "http://b/9" "1 point | 1 day ago | 0 comments"
         None]))].

(** The second page never shows a story. *)
Definition exhausted_world : World :=
  world (input "EYWA" "eywa" 10 false)
        (second_page_fails (NavOk blank)).

(** The navigation to the second page raises. *)
Definition unreachable_world : World :=
  world (input "EYWA" "eywa" 10 false)
        (second_page_fails (NavError (lit "net::ERR_CONNECTION_RESET"))).

(** Scenario C: the pattern has an unbalanced parenthesis. *)
Definition invalid_pattern_world : World :=
  world (input "EYWA" "(eywa" 10 true) (second_page_fails (NavOk blank)).

(** Scenario D: the first discussion never shows a comment; the last one
    has two comments, one of which matches. *)
Definition threads_site (first_thread : navigation)
  : list (str * navigation) :=
  [(page_url "EYWA" 1, first_page);
   (lit "http://hn/1", first_thread);
   (lit "http://hn/4",
    NavOk (thread [remark "I like Eywa a lot" "alice";
                   remark "off topic" "bob"]))].


Definition broken_thread_world : World :=
  world (input "EYWA" "eywa" 10 true)
        (threads_site (NavError (lit "net::ERR_TIMED_OUT"))).

(** A title link without [href]. *)
Definition no_href : Story :=
  {| Story_title :=
       Some {| title_anchor :=
                 Some {| a_text := lit "eywa news"; a_href := None |} |};
     Story_meta := Some (lit "1 point | 1 hour ago | 0 comments");
     comment_link := None |}.

Definition no_href_world : World :=
  world (input "EYWA" "eywa" 10 false)
        [(page_url "EYWA" 1, NavOk (results [no_href]))].

(** A title link without text, and a pattern that matches the empty
    text. *)
Definition bare_link : Story :=
  {| Story_title :=
       Some {| title_anchor :=
                 Some {| a_text := []; a_href := Some (lit "http://d/1") |} |};
     Story_meta := Some (lit "1 point | 1 hour ago | 0 comments");
     comment_link := None |}.

Definition bare_link_world : World :=
  world (input "EYWA" "" 10 false)
        [(page_url "EYWA" 1, NavOk (results [bare_link]))].

(** A matching title whose metadata counts comments, but no link to the
    discussion is found. *)
Definition no_discussion_link : Story :=
  entry "EYWA on air" "http://c/1" "3 points | 1 hour ago | 7 comments" None.

Definition skipped_site : list (str * navigation) :=
  [(page_url "EYWA" 1, NavOk (results [no_discussion_link]))].

(** A comment of 201 code points, each of two bytes in UTF-8. *)
Definition long_comment : Comment :=
  {| comment_text := lit "eywa " ++ repeat 233%N 196;
     comhead := Some {| hnuser := [] |} |}.

(** The first discussion holds that comment. *)
Definition long_comment_world : World :=
  world (input "EYWA" "eywa" 10 true)
        (threads_site (NavOk (thread [long_comment]))).

End Scenario.

(** ** Notions the properties are stated with *)

Section Notions.

Context {RE : Regex}.
Variable site : str -> navigation.

(** The matching entries of one page, in page order, without any budget:
    every story whose [try] body builds a match. *)
Definition page_matches (pattern : Pattern) (stories : list Story)
  : list EntryMatch :=
  flat_map (fun story =>
              match story_match pattern story with
              | Some (Some m) => [m]
              | _ => []
              end) stories.

(** The matches in page-traversal order: those of [n] consecutive result
    pages from [page] on, up to the first page that does not load or shows
    no story. *)
Fixpoint traversal (pattern : Pattern) (search_term : str) (page n : nat)
  : list EntryMatch :=
  match n with
  | 0 => []
  | S n' =>
      match site (search_url search_term page) with
      | NavOk dom =>
          match dom_Story dom with
          | Located stories =>
              page_matches pattern stories
                ++ traversal pattern search_term (S page) n'
          | NotLocated _ => []
          end
      | NavError _ => []
      end
  end.

(** The condition of line 209. *)
Definition eligible (m : EntryMatch) : bool :=
  truthy (hn_url m) && (0 <? comments m).

(** The discussion URLs of the eligible entries, in order. *)
Definition thread_urls (posts : list EntryMatch) : list str :=
  flat_map (fun m =>
              match hn_url m with
              | Some u => if eligible m then [u] else []
              | None => []
              end) posts.


(** A page fetch fails: the navigation raises, or the wait for the first
    story does (timeout or error). *)
Definition page_fetch_fails (url : str) : Prop :=
  match site url with
  | NavError _ => True
  | NavOk dom => exists why, dom_Story dom = NotLocated why
  end.


End Notions.

(** The task parameters of a run, with the defaults of [main]. *)
Definition search_term_of (w : World) : str :=
  dict_get (in_search_term (task_data w)) (lit "EYWA").
Definition regex_pattern_of (w : World) : str :=
  dict_get (in_regex_pattern (task_data w)) (lit "EYWA|eywa").
Definition max_results_of (w : World) : Z :=
  dict_get (in_max_results (task_data w)) 10%Z.
Definition check_comments_of (w : World) : bool :=
  dict_get (in_check_comments (task_data w)) false.
Definition headless_of (w : World) : bool :=
  dict_get (in_headless (task_data w)) false.


Section RunNotions.

Context {RE : Regex}.

(** The three stages of a run that got its browser. *)
Definition search_of (w : World) : run (list EntryMatch) :=
  search_hn_posts (site w) (search_term_of w) (regex_pattern_of w)
                  (max_results_of w).

Definition comments_of (w : World) (posts : list EntryMatch)
  : run (list CommentMatch) :=
  comment_pass w (regex_pattern_of w) (check_comments_of w) posts.

Definition report_of (w : World) (posts : list EntryMatch)
    (found : list CommentMatch) : Report :=
  prepare_report w (search_term_of w) (regex_pattern_of w) (headless_of w)
                 posts found.

(** The run failed: it closed its task with the [ERROR] status. *)
Definition run_failed (w : World) : Prop := In (CloseTask ERROR) (main w).

(** A failed run hands a report, however partial, to the collaborator. *)
Definition partial_report_on_failure (w : World) : Prop :=
  run_failed w -> exists r, In r (reports (main w)).

End RunNotions.

(** ** The claims of the specification that the code does not meet, as
    they are stated *)

Section Stated.

Context {RE : Regex}.

(** A failed page fetch, at any turn of the loop, ends the search without
    an exception, with the matches accumulated so far. *)
Definition page_fetch_failure_is_tolerated (site : str -> navigation)
    (p : Pattern) (t : str) (max : Z) (page : nat) (ms : list EntryMatch)
  : Prop :=
  page_fetch_fails site (search_url t page) ->
  outcome (search_loop site p t max page ms) = Return ms.


(** An entry with a non-empty title and a canonical URL. *)
Definition well_formed_entry (m : EntryMatch) : Prop :=
  title m <> [] /\ url m <> None.

End Stated.

(** ** The runs of the scenarios *)

Module Runs.

Import Literal Scenario.

Definition sole_report (w : World) : Report :=
  hd (report_of w [] []) (reports (main w)).

Definition budget_report : Report :=
  Eval vm_compute in sole_report budget_world.

Definition exhausted_report : Report :=
  Eval vm_compute in sole_report exhausted_world.


Definition no_href_report : Report :=
  Eval vm_compute in sole_report no_href_world.

Definition bare_link_report : Report :=
  Eval vm_compute in sole_report bare_link_world.

(** The matches of [first_page], in page order. *)
Definition first_page_matches : list EntryMatch :=
  Eval vm_compute in
    traversal (site exhausted_world) (lit "eywa") (lit "EYWA") 1 1.

Definition eywa_released : EntryMatch :=
  Eval vm_compute in nth 0 first_page_matches
    {| title := []; url := None; hn_url := None; points := 0; comments := 0;
       time := []; match_type := []; matched_text := [] |}.

Definition why_eywa : EntryMatch :=
  Eval vm_compute in nth 1 first_page_matches eywa_released.

Definition long_comment_report : Report :=
  Eval vm_compute in sole_report long_comment_world.

Definition long_comment_match : CommentMatch :=
  {| story_title := lit "EYWA released"; story_url := lit "http://hn/1";
     c_comment_text := firstn 200 (comment_text long_comment) ++ lit "...";
     user := lit "unknown"; c_matched_text := lit "eywa" |}.

End Runs.

(** ** The rest of the robot *)

(** *** [setup_driver]: the arguments given to Chrome (lines 23-40) *)

(** [chrome_options.add_argument(argument)] *)
Definition add_argument (chrome_options : list str) (argument : string)
  : list str :=
  chrome_options ++ [lit argument].

Definition chrome_arguments (headless : bool) : list str :=
  let chrome_options := [] in
  let chrome_options :=
    if headless then add_argument chrome_options "--headless"
    else chrome_options in
  let chrome_options := add_argument chrome_options "--no-sandbox" in
  let chrome_options :=
    add_argument chrome_options "--disable-dev-shm-usage" in
  let chrome_options := add_argument chrome_options "--disable-gpu" in
  let chrome_options :=
    add_argument chrome_options "--window-size=1920,1080" in
  let chrome_options :=
    if negb headless then add_argument chrome_options "--start-maximized"
    else chrome_options in
  chrome_options.

(** *** The task of [main] (lines 180-189) *)

(** The dictionary [eywa.get_task()] returns, as far as its entries are
    dictionaries of parameters. *)
Definition Task := list (str * InputData).

(** [task.get(key)] *)
Fixpoint task_entry (key : str) (task : Task) : option InputData :=
  match task with
  | [] => None
  | (k, v) :: task' =>
      if list_eq_dec N.eq_dec k key then Some v else task_entry key task'
  end.

(** [{}] *)
Definition empty_dict : InputData :=
  {| in_search_term := None; in_regex_pattern := None;
     in_max_results := None; in_check_comments := None;
     in_headless := None |}.

(** [input_data = task.get('data', {})] *)
Definition input_data_of (task : Task) : InputData :=
  dict_get (task_entry (lit "data") task) empty_dict.

(** The run of [main] on a task, in the surroundings of [w]. *)
Definition world_of_task (task : Task) (w : World) : World :=
  {| task_data := input_data_of task;
     chrome_failure := chrome_failure w;
     site := site w;
     now_isoformat := now_isoformat w |}.

(** ** Notions for further properties *)

(** One list is the other with some elements left out, the order kept. *)
Inductive subsequence {A : Type} : list A -> list A -> Prop :=
| subsequence_nil : forall l, subsequence [] l
| subsequence_keep : forall x l1 l2,
    subsequence l1 l2 -> subsequence (x :: l1) (x :: l2)
| subsequence_skip : forall x l1 l2,
    subsequence l1 l2 -> subsequence l1 (x :: l2).

Section MoreNotions.

Context {RE : Regex}.
Variable site : str -> navigation.

(** The result page [page] loads and shows stories. *)
Definition page_loads (search_term : str) (page : nat) : Prop :=
  exists dom stories,
    site (search_url search_term page) = NavOk dom /\
    dom_Story dom = Located stories.

(** The stories of [n] consecutive result pages from [page] on, in page
    order, up to the first page that does not load or shows no story. *)
Fixpoint shown_stories (search_term : str) (page n : nat) : list Story :=
  match n with
  | 0 => []
  | S n' =>
      match site (search_url search_term page) with
      | NavOk dom =>
          match dom_Story dom with
          | Located stories =>
              stories ++ shown_stories search_term (S page) n'
          | NotLocated _ => []
          end
      | NavError _ => []
      end
  end.



End MoreNotions.

(** ** More scenarios *)

Module Scenario2.

Import Literal Scenario.

Definition filler (n : nat) : Story :=
  entry "Nothing to see" "http://f/0" "1 point | 1 hour ago | 0 comments"
        None.

(** Scenario A of the specification: three pages of five entries, of
    which only the third entry of the second page mentions "alpha". *)
Definition alpha_site : list (str * navigation) :=
  [(page_url "alpha" 1, NavOk (results (map filler (seq 0 5))));
   (page_url "alpha" 2,
    NavOk (results
      [filler 0; filler 1;
       entry "The Alpha release" "http://a/23"
             "3 points | 2 hours ago | 0 comments" None;
       filler 3; filler 4]));
   (page_url "alpha" 3, NavOk (results (map filler (seq 0 5))))].

Definition alpha_world : World :=
  world (input "alpha" "alpha" 10 false) alpha_site.

(** A budget of zero. *)
Definition zero_budget_world : World :=
  world (input "EYWA" "eywa" 0 true) (second_page_fails (NavOk blank)).

(** No title mentions the pattern. *)
Definition no_match_world : World :=
  world (input "EYWA" "zebra" 10 true) (threads_site (NavOk blank)).

(** The browser does not start, and the pattern does not compile. *)
Definition no_browser_world : World :=
  {| task_data := input "EYWA" "(eywa" 10 true;
     chrome_failure := Some (lit "chromedriver not found");
     site := pages (second_page_fails (NavOk blank));
     now_isoformat := lit "2025-01-01T00:00:00" |}.

(** The task of test_hn_custom.py: its parameters are under ['input']. *)
Definition mock_task : Task :=
  [(lit "input",
    {| in_search_term := Some (lit "robotics");
       in_regex_pattern := Some (lit "robot|robotic|RPA|automation");
       in_max_results := Some 5%Z;
       in_check_comments := Some false;
       in_headless := None |})].

(** A discussion of sixty comments that all match. *)
Definition busy_thread : navigation :=
  NavOk (thread (repeat (remark "eywa again" "carol") 60)).

Definition busy_world : World :=
  world (input "EYWA" "eywa" 10 true) (threads_site busy_thread).

(** A discussion whose comments lack a header or an author. *)
Definition headless_comment : Comment :=
  {| comment_text := lit "eywa without header"; comhead := None |}.

Definition anonymous_comment : Comment :=
  {| comment_text := lit "eywa without author";
     comhead := Some {| hnuser := [] |} |}.

End Scenario2.

(** ** The runs of these scenarios *)

Module Runs2.

Import Literal Scenario Scenario2 Runs.

(** The result of the search on the three pages of [alpha_site]. *)
Definition alpha_result : list EntryMatch :=
  Eval vm_compute in
    traversal (site alpha_world) (lit "alpha") (lit "alpha") 1 5.

Definition alpha_story : Story :=
  entry "The Alpha release" "http://a/23"
        "3 points | 2 hours ago | 0 comments" None.

Definition busy_report : Report :=
  Eval vm_compute in sole_report busy_world.

Definition no_match_report : Report :=
  Eval vm_compute in sole_report no_match_world.

End Runs2.

(** * Properties *)

(** ** Computations *)

Lemma bind_trace_outcome {A B} (c : run A) (k : A -> run B) :
  bind c k =
    match outcome c with
    | Return a => (trace c ++ trace (k a), outcome (k a))
    | Raise e => (trace c, Raise e)
    end.
Proof.
  destruct c as [tr [a|e]]; cbn; [|reflexivity].
  destruct (k a); reflexivity.
Qed.

Lemma bind_return {A B} (c : run A) (k : A -> run B) a :
  outcome c = Return a ->
  bind c k = (trace c ++ trace (k a), outcome (k a)).
Proof. intros H. rewrite bind_trace_outcome, H. reflexivity. Qed.

Lemma bind_raise {A B} (c : run A) (k : A -> run B) e :
  outcome c = Raise e -> bind c k = (trace c, Raise e).
Proof. intros H. rewrite bind_trace_outcome, H. reflexivity. Qed.

Lemma fetches_app tr1 tr2 : fetches (tr1 ++ tr2) = fetches tr1 ++ fetches tr2.
Proof. apply flat_map_app. Qed.

Lemma reports_app tr1 tr2 : reports (tr1 ++ tr2) = reports tr1 ++ reports tr2.
Proof. apply flat_map_app. Qed.

Lemma errors_app tr1 tr2 : errors (tr1 ++ tr2) = errors tr1 ++ errors tr2.
Proof. apply flat_map_app. Qed.

Lemma closes_app tr1 tr2 : closes (tr1 ++ tr2) = closes tr1 ++ closes tr2.
Proof. apply flat_map_app. Qed.

Lemma only_fetches_nil : only_fetches [].
Proof. reflexivity. Qed.

Lemma only_fetches_app tr1 tr2 :
  only_fetches tr1 -> only_fetches tr2 -> only_fetches (tr1 ++ tr2).
Proof.
  unfold only_fetches. intros H1 H2.
  rewrite fetches_app, map_app, <- H1, <- H2. reflexivity.
Qed.

Lemma only_fetches_map urls : only_fetches (map DriverGet urls).
Proof.
  unfold only_fetches. induction urls as [|u urls IH]; cbn; [reflexivity|].
  f_equal. exact IH.
Qed.

Lemma fetches_map urls : fetches (map DriverGet urls) = urls.
Proof.
  induction urls as [|u urls IH]; cbn; [reflexivity|]. f_equal. exact IH.
Qed.

Lemma only_fetches_silent tr :
  only_fetches tr -> reports tr = [] /\ errors tr = [] /\ closes tr = [].
Proof.
  unfold only_fetches. intros ->. generalize (fetches tr). intros urls.
  induction urls as [|u urls IH]; cbn; auto.
Qed.

(** ** The search controller *)

Section SearchFacts.

Context {RE : Regex}.
Variable site : str -> navigation.

Lemma driver_get_run url :
  driver_get site url =
    ([DriverGet url],
     match site url with
     | NavError msg => Raise (WebDriverException msg)
     | NavOk page => Return page
     end).
Proof. unfold driver_get. destruct (site url); reflexivity. Qed.

Lemma search_page_run p t max page ms :
  search_page site p t max page ms =
    ([DriverGet (search_url t page)],
     match site (search_url t page) with
     | NavError msg => Raise (WebDriverException msg)
     | NavOk dom =>
         match dom_Story dom with
         | NotLocated _ => Return (Break ms)
         | Located stories =>
             Return (Continue (scan_stories p max stories ms))
         end
     end).
Proof.
  unfold search_page. rewrite driver_get_run.
  destruct (site (search_url t page)) as [msg|dom]; [reflexivity|].
  cbn. destruct (dom_Story dom); reflexivity.
Qed.

(** One turn of the loop, as the [while] statement reads. *)
Lemma search_loop_step p t max page ms :
  search_loop site p t max page ms =
    if search_guard max page ms then
      c <- search_page site p t max page ms ;;
      match c with
      | Break ms' => ret ms'
      | Continue ms' => search_loop site p t max (page + 1) ms'
      end
    else ret ms.
Proof.
  simp search_loop.
  change (search_guard max page ms) with
    (proj1_sig (inspect (search_guard max page ms))) at 2.
  destruct (inspect (search_guard max page ms)) as [[] H]; reflexivity.
Qed.

Lemma search_guard_true max page ms :
  search_guard max page ms = true <->
  (Z.of_nat (length ms) < max)%Z /\ page <= 5.
Proof.
  unfold search_guard.
  rewrite andb_true_iff, Z.ltb_lt, Nat.leb_le. reflexivity.
Qed.

Lemma search_guard_false max page ms :
  search_guard max page ms = false <->
  (max <= Z.of_nat (length ms))%Z \/ 5 < page.
Proof.
  unfold search_guard.
  rewrite andb_false_iff, Z.ltb_ge, Nat.leb_gt. reflexivity.
Qed.

(** Within a page the scan appends the matches in page order until the
    budget is met, and nothing after that. *)
Lemma scan_stories_spec p max stories : forall ms,
  (Z.of_nat (length ms) < max)%Z ->
  scan_stories p max stories ms =
    ms ++ firstn (Z.to_nat (max - Z.of_nat (length ms)))
                 (page_matches p stories).
Proof.
  induction stories as [|story rest IH]; intros ms Hlt.
  - cbn. rewrite firstn_nil, app_nil_r. reflexivity.
  - cbn [scan_stories page_matches flat_map].
    fold (page_matches p rest).
    destruct (story_match p story) as [[m|]|]; cbn [app]; try (apply IH; exact Hlt).
    assert (Hlen : length (ms ++ [m]) = S (length ms))
      by (rewrite length_app; cbn; lia).
    assert (Hb : Z.to_nat (max - Z.of_nat (length ms)) =
                 S (Z.to_nat (max - Z.of_nat (length (ms ++ [m])))))
      by (rewrite Hlen; lia).
    rewrite Hb. cbn [firstn].
    destruct (Z.of_nat (length (ms ++ [m])) >=? max)%Z eqn:Hfull.
    + apply Z.geb_le in Hfull.
      replace (Z.to_nat (max - Z.of_nat (length (ms ++ [m])))) with 0 by lia.
      reflexivity.
    + rewrite Z.geb_leb in Hfull. apply Z.leb_gt in Hfull.
      rewrite IH by exact Hfull. rewrite <- app_assoc. reflexivity.
Qed.

Lemma traversal_loaded p t page n dom stories :
  site (search_url t page) = NavOk dom ->
  dom_Story dom = Located stories ->
  traversal site p t page (S n) =
    page_matches p stories ++ traversal site p t (S page) n.
Proof. intros Hnav Hdom. cbn [traversal]. rewrite Hnav, Hdom. reflexivity. Qed.

(** What the loop does from any state: it fetches consecutive pages, each
    one only while the budget is not met, and returns the accumulated
    matches followed by the next matches in traversal order, up to the
    budget. *)
Lemma search_loop_spec p t max n : forall page ms,
  6 - page <= n ->
  exists k,
    trace (search_loop site p t max page ms) =
      map DriverGet (map (search_url t) (seq page k)) /\
    k <= 6 - page /\
    (forall j, j < k ->
       (Z.of_nat (length ms + length (traversal site p t page j)) < max)%Z) /\
    (forall out,
       outcome (search_loop site p t max page ms) = Return out ->
       out = ms ++ firstn (Z.to_nat (max - Z.of_nat (length ms)))
                          (traversal site p t page (6 - page))).
Proof.
  induction n as [|n IH]; intros page ms Hn;
    rewrite search_loop_step;
    destruct (search_guard max page ms) eqn:Hguard.
  - apply search_guard_true in Hguard. lia.
  - exists 0. cbn [trace fst ret seq map outcome snd].
    repeat split; [lia | lia |].
    intros out [= <-]. replace (6 - page) with 0 by lia.
    cbn [traversal]. rewrite firstn_nil, app_nil_r. reflexivity.
  - apply search_guard_true in Hguard as [Hlt Hpage].
    rewrite search_page_run.
    destruct (site (search_url t page)) as [msg|dom] eqn:Hnav.
    + exists 1. cbn [bind ret trace fst outcome snd app seq map].
      repeat split; [lia | | discriminate].
      intros j Hj. replace j with 0 by lia. cbn. lia.
    + destruct (dom_Story dom) as [why|stories] eqn:Hdom.
      * exists 1. cbn [bind ret trace fst outcome snd app seq map].
        repeat split; [lia | |].
        -- intros j Hj. replace j with 0 by lia. cbn. lia.
        -- intros out [= <-].
           replace (6 - page) with (S (5 - page)) by lia.
           cbn [traversal]. rewrite Hnav, Hdom, firstn_nil, app_nil_r.
           reflexivity.
      * rewrite bind_return with (a := Continue (scan_stories p max stories ms))
          by reflexivity.
        cbv beta iota. cbn [trace outcome fst snd].
        destruct (IH (page + 1) (scan_stories p max stories ms)) as
          (k & Htr & Hk & Hpre & Hout); [lia|].
        rewrite scan_stories_spec in * by exact Hlt.
        set (b := Z.to_nat (max - Z.of_nat (length ms))) in *.
        set (pm := page_matches p stories) in *.
        assert (Hms' : length (ms ++ firstn b pm) =
                       length ms + Nat.min b (length pm))
          by (rewrite length_app, length_firstn; reflexivity).
        exists (S k). rewrite Htr. rewrite Nat.add_1_r in *.
        repeat split; [lia | |].
        -- intros [|j] Hj; [cbn; lia|].
           rewrite (traversal_loaded p t page j dom stories Hnav Hdom). fold pm.
           specialize (Hpre j ltac:(lia)).
           rewrite length_app in *. rewrite length_firstn in Hpre. lia.
        -- intros out Hret. rewrite (Hout out Hret).
           replace (6 - page) with (S (6 - S page)) by lia.
           rewrite (traversal_loaded p t page _ dom stories Hnav Hdom). fold pm.
           rewrite firstn_app, <- app_assoc. do 3 f_equal.
           rewrite Hms'. lia.
  - exists 0. cbn [trace fst ret seq map outcome snd].
    repeat split; [lia | lia |].
    intros out [= <-]. apply search_guard_false in Hguard as [Hfull|Hpage].
    + replace (Z.to_nat (max - Z.of_nat (length ms))) with 0 by lia.
      cbn. rewrite app_nil_r. reflexivity.
    + replace (6 - page) with 0 by lia.
      cbn [traversal]. rewrite firstn_nil, app_nil_r. reflexivity.
Qed.

End SearchFacts.

(** ** The thread traverser *)

Section ThreadFacts.

Context {RE : Regex}.
Variable site : str -> navigation.

Lemma compile_run regex :
  compile regex =
    ([], match re_compile regex with
         | inl msg => Raise (re_error msg)
         | inr p => Return p
         end).
Proof. unfold compile. destruct (re_compile regex); reflexivity. Qed.

Lemma search_hn_posts_run t regex max :
  search_hn_posts site t regex max =
    match re_compile regex with
    | inl msg => ([], Raise (re_error msg))
    | inr p => search_loop site p t max 1 []
    end.
Proof.
  unfold search_hn_posts. rewrite compile_run.
  destruct (re_compile regex) as [msg|p]; [reflexivity|].
  cbn [bind]. destruct (search_loop site p t max 1 []). reflexivity.
Qed.

Lemma scrape_hn_comments_run u regex ttl :
  scrape_hn_comments site u regex ttl =
    ([DriverGet u],
     match site u with
     | NavError msg => Raise (WebDriverException msg)
     | NavOk dom =>
         match re_compile regex with
         | inl msg => Raise (re_error msg)
         | inr p =>
             Return match dom_comment dom with
                    | NotLocated _ => []
                    | Located found =>
                        scan_comments p u ttl (firstn 50 found) []
                    end
         end
     end).
Proof.
  unfold scrape_hn_comments. rewrite driver_get_run, compile_run.
  destruct (site u) as [msg|dom]; [reflexivity|].
  destruct (re_compile regex) as [msg|p]; [reflexivity|].
  cbn. destruct (dom_comment dom); reflexivity.
Qed.

Lemma thread_urls_cons m rest :
  thread_urls (m :: rest) =
    match hn_url m with
    | Some u => if eligible m then u :: thread_urls rest else thread_urls rest
    | None => thread_urls rest
    end.
Proof.
  unfold thread_urls. cbn [flat_map].
  destruct (hn_url m); [destruct (eligible m)|]; reflexivity.
Qed.


(** One turn of the comment pass. *)
Lemma check_posts_cons regex m rest acc :
  check_posts site regex (m :: rest) acc =
    match hn_url m with
    | Some u =>
        if eligible m then
          found <- scrape_hn_comments site u regex (title m) ;;
          check_posts site regex rest (acc ++ found)
        else check_posts site regex rest acc
    | None => check_posts site regex rest acc
    end.
Proof.
  cbn [check_posts]. unfold eligible.
  destruct (hn_url m); reflexivity.
Qed.

(** The comment pass fetches discussion pages of eligible entries only,
    in their order, each at most once. *)
Lemma check_posts_trace regex posts : forall acc,
  exists k,
    trace (check_posts site regex posts acc) =
      map DriverGet (firstn k (thread_urls posts)).
Proof.
  induction posts as [|m rest IH]; intros acc.
  - exists 0. reflexivity.
  - rewrite check_posts_cons, thread_urls_cons.
    destruct (hn_url m) as [u|]; [|apply IH].
    destruct (eligible m); [|apply IH].
    rewrite bind_trace_outcome, scrape_hn_comments_run.
    cbn [outcome snd trace fst].
    destruct (site u) as [msg|dom]; [exists 1; reflexivity|].
    destruct (re_compile regex) as [msg|p]; [exists 1; reflexivity|].
    match goal with
    | |- context [check_posts site regex rest ?a] =>
        destruct (IH a) as [k Hk]
    end.
    exists (S k). cbn [trace fst outcome snd] in *. rewrite Hk. reflexivity.
Qed.


End ThreadFacts.

(** ** The run *)

Section MainFacts.

Context {RE : Regex}.

(** The [try] block, stage by stage. *)
Lemma main_try_run w :
  main_try w =
    match chrome_failure w with
    | Some msg => ([UpdateTask PROCESSING], Raise (WebDriverException msg))
    | None =>
        match outcome (search_of w) with
        | Raise e => ([UpdateTask PROCESSING] ++ trace (search_of w), Raise e)
        | Return posts =>
            match outcome (comments_of w posts) with
            | Raise e =>
                ([UpdateTask PROCESSING]
                   ++ trace (search_of w) ++ trace (comments_of w posts),
                 Raise e)
            | Return found =>
                ([UpdateTask PROCESSING]
                   ++ trace (search_of w) ++ trace (comments_of w posts)
                   ++ [EywaReport (lit "HN scraping complete")
                                  (report_of w posts found);
                       CloseTask SUCCESS],
                 Return tt)
            end
        end
    end.
Proof.
  unfold main_try, setup_driver. cbv zeta.
  fold (search_term_of w) (regex_pattern_of w) (max_results_of w)
       (check_comments_of w) (headless_of w).
  fold (search_of w).
  destruct (chrome_failure w) as [msg|]; [reflexivity|].
  destruct (search_of w) as [trs [posts|e]]; [|reflexivity].
  cbn [bind emit ret outcome snd trace fst app].
  fold (comments_of w posts). fold (report_of w posts).
  destruct (comments_of w posts) as [trc [found|e]]; reflexivity.
Qed.

Lemma search_of_only_fetches w : only_fetches (trace (search_of w)).
Proof.
  unfold search_of. rewrite search_hn_posts_run.
  destruct (re_compile (regex_pattern_of w)) as [msg|p];
    [apply only_fetches_nil|].
  destruct (@search_loop_spec _ (site w) p (search_term_of w)
              (max_results_of w) 5 1 [] (Nat.le_refl 5)) as (k & Htr & _).
  rewrite Htr. apply only_fetches_map.
Qed.

Lemma comments_of_only_fetches w posts :
  only_fetches (trace (comments_of w posts)).
Proof.
  unfold comments_of, comment_pass.
  destruct (check_comments_of w && nonempty posts);
    [|apply only_fetches_nil].
  destruct (check_posts_trace (site w) (regex_pattern_of w)
              (firstn 5 posts) []) as [k Hk].
  rewrite Hk. apply only_fetches_map.
Qed.

(** What the collaborators see of a run: either an error message and the
    [ERROR] status and no report, or one report and the [SUCCESS]
    status. *)
Lemma main_observed w :
  match outcome (main_try w) with
  | Raise e =>
      reports (main w) = [] /\
      errors (main w) = [lit "Robot failed: " ++ exn_str e] /\
      closes (main w) = [ERROR]
  | Return _ =>
      errors (main w) = [] /\
      closes (main w) = [SUCCESS] /\
      exists posts found,
        outcome (search_of w) = Return posts /\
        outcome (comments_of w posts) = Return found /\
        reports (main w) = [report_of w posts found]
  end.
Proof.
  pose proof (only_fetches_silent _ (search_of_only_fetches w))
    as (Hsr & Hse & Hsc).
  unfold main, main_finally. rewrite main_try_run.
  destruct (chrome_failure w) as [msg|]; [cbn; auto|].
  destruct (outcome (search_of w)) as [posts|e] eqn:Hs.
  2: { cbn [outcome snd try_except main_except bind emit trace fst].
       rewrite !reports_app, !errors_app, !closes_app, Hsr, Hse, Hsc.
       cbn. auto. }
  pose proof (only_fetches_silent _ (comments_of_only_fetches w posts))
    as (Hcr & Hce & Hcc).
  destruct (outcome (comments_of w posts)) as [found|e] eqn:Hc;
    cbn [outcome snd try_except main_except bind emit trace fst];
    rewrite !reports_app, !errors_app, !closes_app,
            Hsr, Hse, Hsc, Hcr, Hce, Hcc;
    cbn; auto.
  repeat split. exists posts, found. auto.
Qed.

End MainFacts.

(** ** The report and the end of a run *)

Section ReportFacts.

Context {RE : Regex}.

Lemma In_reports msg r tr : In (EywaReport msg r) tr -> In r (reports tr).
Proof.
  intros H. unfold reports. apply in_flat_map.
  exists (EywaReport msg r). split; [exact H | left; reflexivity].
Qed.

Lemma In_closes s tr : In (CloseTask s) tr -> In s (closes tr).
Proof.
  intros H. unfold closes. apply in_flat_map.
  exists (CloseTask s). split; [exact H | left; reflexivity].
Qed.

(** Every report of a run is the one prepared from the result of the
    search and of the comment pass. *)
Lemma main_report_inv w r :
  In r (reports (main w)) ->
  exists posts found,
    outcome (search_of w) = Return posts /\
    outcome (comments_of w posts) = Return found /\
    r = report_of w posts found /\
    reports (main w) = [r] /\
    closes (main w) = [SUCCESS] /\
    errors (main w) = [].
Proof.
  intros Hin. pose proof (main_observed w) as Hobs.
  destruct (outcome (main_try w)) as [[]|e].
  - destruct Hobs as (He & Hc & posts & found & Hs & Hf & Hr).
    rewrite Hr in Hin. destruct Hin as [<-|[]].
    exists posts, found. auto 10.
  - destruct Hobs as (Hr & _). rewrite Hr in Hin. destruct Hin.
Qed.

(** C1: for every run that produces a report, the report's
    [total_matches] is the length of its list of entry matches plus the
    length of its list of comment matches; it is computed from the two
    lists when the report is prepared. *)
Theorem report_total_is_sum_of_lengths w msg r :
  In (EywaReport msg r) (main w) ->
  total_matches r = length (post_matches r) + length (comment_matches r).
Proof.
  intros Hin. apply In_reports in Hin.
  destruct (main_report_inv w r Hin) as (posts & found & _ & _ & -> & _).
  reflexivity.
Qed.

(** C4, as the code has it: when an exception leaves the [try] block the
    run sends one error message, hands no report at all to the
    collaborator and closes the task with the [ERROR] status; a report is
    only emitted by a run that completes, once and with every field set
    from the finished search and comment pass. *)
Theorem failure_sends_error_and_no_report w :
  (forall e, outcome (main_try w) = Raise e ->
     reports (main w) = [] /\
     errors (main w) = [lit "Robot failed: " ++ exn_str e] /\
     closes (main w) = [ERROR]) /\
  (run_failed w -> reports (main w) = []) /\
  (forall r, In r (reports (main w)) ->
     reports (main w) = [r] /\
     closes (main w) = [SUCCESS] /\
     exists posts found,
       outcome (search_of w) = Return posts /\
       outcome (comments_of w posts) = Return found /\
       r = report_of w posts found).
Proof.
  split; [|split].
  - intros e He. pose proof (main_observed w) as Hobs.
    rewrite He in Hobs. exact Hobs.
  - intros Hfail. apply In_closes in Hfail.
    pose proof (main_observed w) as Hobs.
    destruct (outcome (main_try w)) as [[]|e].
    + destruct Hobs as (_ & Hc & _). rewrite Hc in Hfail.
      destruct Hfail as [[=]|[]].
    + apply Hobs.
  - intros r Hin.
    destruct (main_report_inv w r Hin)
      as (posts & found & Hs & Hf & Hr & Hone & Hc & _).
    repeat split; try assumption. exists posts, found. auto.
Qed.

(** C5: a run whose pattern does not compile issues no page or thread
    fetch, emits no report and closes the task with the [ERROR] status;
    once its browser has started, the exception that ends it is the error
    of the compilation, sent as the message of the failure. *)
Theorem invalid_pattern_fails_before_any_fetch w msg :
  re_compile (regex_pattern_of w) = inl msg ->
  fetches (main w) = [] /\
  reports (main w) = [] /\
  closes (main w) = [ERROR] /\
  (chrome_failure w = None ->
   outcome (main_try w) = Raise (re_error msg) /\
   errors (main w) = [lit "Robot failed: " ++ msg]).
Proof.
  intros Hbad.
  assert (Hs : search_of w = ([], Raise (re_error msg)))
    by (unfold search_of; rewrite search_hn_posts_run, Hbad; reflexivity).
  unfold main, main_finally. rewrite main_try_run, Hs.
  destruct (chrome_failure w) as [boom|]; cbn.
  - repeat split; discriminate.
  - repeat split.
Qed.

End ReportFacts.

(** ** Where the entries of a result come from *)

Section Provenance.

Context {RE : Regex}.
Variable site : str -> navigation.

Lemma In_firstn {A} (x : A) n l : In x (firstn n l) -> In x l.
Proof.
  intros H. rewrite <- (firstn_skipn n l). apply in_or_app. left. exact H.
Qed.

(** What a match says about the story it was built from. *)
Lemma story_match_inv p story m :
  story_match p story = Some (Some m) ->
  exists telem link meta,
    Story_title story = Some telem /\
    title_anchor telem = Some link /\
    Story_meta story = Some meta /\
    title m = a_text link /\
    url m = a_href link /\
    pattern_search p (a_text link) = Some (matched_text m) /\
    comments m = match search_comments meta with Some n => n | None => 0 end /\
    (comments m = 0 -> hn_url m = None) /\
    (0 < comments m ->
     exists a, comment_link story = Some a /\ hn_url m = a_href a).
Proof.
  unfold story_match. intros H.
  destruct (Story_title story) as [telem|] eqn:Ht; [|discriminate].
  destruct (title_anchor telem) as [link|] eqn:Ha; [|discriminate].
  destruct (Story_meta story) as [meta|] eqn:Hm; [|discriminate].
  exists telem, link, meta.
  destruct (pattern_search p (a_text link)) as [matched|]; [|discriminate].
  destruct (0 <? match search_comments meta with Some n => n | None => 0 end)
    eqn:Hpos.
  - destruct (comment_link story) as [a|] eqn:Hl; [|discriminate].
    cbn in H. injection H as <-. cbn.
    apply Nat.ltb_lt in Hpos.
    repeat split; try reflexivity; try assumption;
      [intros H0; exfalso; lia | intros _; exists a; auto].
  - injection H as <-. cbn. apply Nat.ltb_ge in Hpos.
    repeat split; try reflexivity; try assumption.
    intros H0. exfalso. lia.
Qed.

Lemma page_matches_In p stories m :
  In m (page_matches p stories) ->
  exists story, In story stories /\ story_match p story = Some (Some m).
Proof.
  unfold page_matches. intros H. apply in_flat_map in H as (story & Hin & Hm).
  exists story. split; [exact Hin|].
  destruct (story_match p story) as [[m'|]|]; try contradiction.
  destruct Hm as [->|[]]. reflexivity.
Qed.

Lemma traversal_In p t n : forall page m,
  In m (traversal site p t page n) ->
  exists page' dom stories story,
    page <= page' < page + n /\
    site (search_url t page') = NavOk dom /\
    dom_Story dom = Located stories /\
    In story stories /\
    story_match p story = Some (Some m).
Proof.
  induction n as [|n IH]; intros page m Hin; [destruct Hin|].
  cbn [traversal] in Hin.
  destruct (site (search_url t page)) as [msg|dom] eqn:Hnav; [destruct Hin|].
  destruct (dom_Story dom) as [why|stories] eqn:Hdom; [destruct Hin|].
  apply in_app_or in Hin as [Hin|Hin].
  - apply page_matches_In in Hin as (story & Hs & Hm).
    exists page, dom, stories, story. repeat split; auto; lia.
  - apply IH in Hin as (page' & dom' & stories' & story & Hp & Hrest).
    exists page', dom', stories', story. split; [lia | exact Hrest].
Qed.

(** The result of the search, when it returns. *)
Lemma search_hn_posts_result t regex max out :
  outcome (search_hn_posts site t regex max) = Return out ->
  exists p,
    re_compile regex = inr p /\
    out = firstn (Z.to_nat max) (traversal site p t 1 5).
Proof.
  rewrite search_hn_posts_run.
  destruct (re_compile regex) as [msg|p]; [discriminate|].
  intros Hout. exists p. split; [reflexivity|].
  destruct (@search_loop_spec _ site p t max 5 1 [] (Nat.le_refl 5))
    as (k & _ & _ & _ & Hres).
  rewrite (Hres out Hout). cbn [app length]. rewrite Z.sub_0_r. reflexivity.
Qed.

(** Every entry match of a result was built from a story of one of the
    five result pages. *)
Lemma search_hn_posts_In t regex max out m :
  outcome (search_hn_posts site t regex max) = Return out ->
  In m out ->
  exists p page dom stories story,
    re_compile regex = inr p /\
    1 <= page <= 5 /\
    site (search_url t page) = NavOk dom /\
    dom_Story dom = Located stories /\
    In story stories /\
    story_match p story = Some (Some m).
Proof.
  intros Hout Hin.
  destruct (search_hn_posts_result t regex max out Hout) as (p & Hp & ->).
  apply In_firstn, traversal_In in Hin
    as (page & dom & stories & story & Hpage & Hrest).
  exists p, page, dom, stories, story. repeat split; try apply Hrest; auto; lia.
Qed.

(** C2: with a budget that is not negative (the task's [max_results] is
    a positive integer), the search never holds more than [max_results]
    matches and never fetches more than five pages; within a page the scan
    appends matches in page order and stops as soon as the budget is met;
    every page is fetched while the matches of the pages before it are
    fewer than the budget, so no page is fetched once the budget is met;
    and the result is exactly the first [max_results] matches in
    page-traversal order. *)
Theorem search_respects_budget_and_page_ceiling t regex max :
  (0 <= max)%Z ->
  length (fetches (trace (search_hn_posts site t regex max))) <= 5 /\
  (forall p stories ms,
     (Z.of_nat (length ms) < max)%Z ->
     (Z.of_nat (length (scan_stories p max stories ms)) <= max)%Z /\
     scan_stories p max stories ms =
       ms ++ firstn (Z.to_nat (max - Z.of_nat (length ms)))
                    (page_matches p stories)) /\
  (exists k,
     fetches (trace (search_hn_posts site t regex max)) =
       map (search_url t) (seq 1 k) /\
     forall p j,
       re_compile regex = inr p -> j < k ->
       (Z.of_nat (length (traversal site p t 1 j)) < max)%Z) /\
  (forall out,
     outcome (search_hn_posts site t regex max) = Return out ->
     (Z.of_nat (length out) <= max)%Z /\
     exists p,
       re_compile regex = inr p /\
       out = firstn (Z.to_nat max) (traversal site p t 1 5)).
Proof.
  intros Hmax.
  assert (Hfetch :
    exists k,
      k <= 5 /\
      fetches (trace (search_hn_posts site t regex max)) =
        map (search_url t) (seq 1 k) /\
      forall p j,
        re_compile regex = inr p -> j < k ->
        (Z.of_nat (length (traversal site p t 1 j)) < max)%Z).
  { rewrite search_hn_posts_run.
    destruct (re_compile regex) as [msg|p].
    - exists 0. repeat split; [lia|]. intros p j _ Hj. lia.
    - destruct (@search_loop_spec _ site p t max 5 1 [] (Nat.le_refl 5))
        as (k & Htr & Hk & Hpre & _).
      exists k. rewrite Htr, fetches_map.
      repeat split; [exact Hk|].
      intros q j [= <-] Hj. exact (Hpre j Hj). }
  destruct Hfetch as (k & Hk & Hurls & Hpre).
  split; [|split; [|split]].
  - rewrite Hurls, length_map, length_seq. exact Hk.
  - intros p stories ms Hlt. rewrite scan_stories_spec by exact Hlt.
    split; [|reflexivity].
    rewrite length_app.
    pose proof (firstn_le_length (Z.to_nat (max - Z.of_nat (length ms)))
                                 (page_matches p stories)).
    lia.
  - exists k. split; assumption.
  - intros out Hout.
    destruct (search_hn_posts_result t regex max out Hout) as (p & Hp & ->).
    split; [|exists p; split; [exact Hp | reflexivity]].
    pose proof (firstn_le_length (Z.to_nat max) (traversal site p t 1 5)).
    lia.
Qed.

(** C3, as the code has it: when the navigation to a page returns and the
    wait for its first story raises, for whichever reason, the loop makes
    no further call, raises nothing and returns the matches accumulated so
    far; an exception raised by the navigation itself leaves the loop. *)
Theorem failed_wait_ends_pagination p t max page ms :
  search_guard max page ms = true ->
  (forall dom why,
     site (search_url t page) = NavOk dom ->
     dom_Story dom = NotLocated why ->
     search_loop site p t max page ms =
       ([DriverGet (search_url t page)], Return ms)) /\
  (forall msg,
     site (search_url t page) = NavError msg ->
     search_loop site p t max page ms =
       ([DriverGet (search_url t page)], Raise (WebDriverException msg))).
Proof.
  intros Hguard. split.
  - intros dom why Hnav Hdom.
    rewrite search_loop_step, Hguard, search_page_run, Hnav, Hdom.
    reflexivity.
  - intros msg Hnav.
    rewrite search_loop_step, Hguard, search_page_run, Hnav.
    reflexivity.
Qed.

(** C9: a story whose title matches the pattern is left out of the
    matches when its metadata counts comments but the lookup of the link
    to its discussion raises: the exception is swallowed and the scan goes
    on with the next story. *)
Theorem matching_title_is_skipped_when_discussion_link_is_missing
    p max story rest ms telem link meta n :
  Story_title story = Some telem ->
  title_anchor telem = Some link ->
  Story_meta story = Some meta ->
  pattern_search p (a_text link) <> None ->
  search_comments meta = Some (S n) ->
  comment_link story = None ->
  story_match p story = None /\
  scan_stories p max (story :: rest) ms = scan_stories p max rest ms /\
  page_matches p (story :: rest) = page_matches p rest.
Proof.
  intros Ht Ha Hm Hmatch Hn Hlink.
  assert (Hskip : story_match p story = None).
  { unfold story_match. rewrite Ht, Ha, Hm, Hn, Hlink.
    destruct (pattern_search p (a_text link)); [reflexivity|].
    contradiction. }
  repeat split; [exact Hskip | |].
  - cbn [scan_stories]. rewrite Hskip. reflexivity.
  - unfold page_matches. cbn [flat_map]. rewrite Hskip. reflexivity.
Qed.

End Provenance.

(** ** Entries and threads of a reported run *)

Section ReportedRun.

Context {RE : Regex}.

Lemma reported_posts w msg r :
  In (EywaReport msg r) (main w) ->
  outcome (search_of w) = Return (post_matches r).
Proof.
  intros Hin. apply In_reports in Hin.
  destruct (main_report_inv w r Hin) as (posts & found & Hs & _ & -> & _).
  exact Hs.
Qed.

(** C8, as the code has it: every entry match of a report was built from a
    story of a fetched result page whose title link was found; its title
    is the text of that link and is matched by the pattern, so it is not
    empty unless the pattern matches the empty text; its URL is the [href]
    attribute of that link, absent when the link has none. *)
Theorem entry_match_copies_the_title_link w msg r m :
  In (EywaReport msg r) (main w) ->
  In m (post_matches r) ->
  exists p page dom stories story telem link,
    re_compile (regex_pattern_of w) = inr p /\
    1 <= page <= 5 /\
    site w (search_url (search_term_of w) page) = NavOk dom /\
    dom_Story dom = Located stories /\
    In story stories /\
    Story_title story = Some telem /\
    title_anchor telem = Some link /\
    title m = a_text link /\
    url m = a_href link /\
    pattern_search p (title m) = Some (matched_text m) /\
    (pattern_search p [] = None -> title m <> []).
Proof.
  intros Hrep Hin. apply reported_posts in Hrep.
  destruct (search_hn_posts_In _ _ _ _ _ _ Hrep Hin)
    as (p & page & dom & stories & story & Hp & Hpage & Hnav & Hdom & Hs & Hm).
  destruct (story_match_inv _ _ _ Hm)
    as (telem & link & meta & Ht & Ha & _ & Htitle & Hurl & Hpat & _).
  exists p, page, dom, stories, story, telem, link.
  rewrite Htitle. repeat split; try assumption; try lia.
  intros Hempty Heq. rewrite Heq, Hempty in Hpat. discriminate.
Qed.

(** C10: in every report, an entry match that counts no comment has no
    discussion URL, whatever links its story shows on the page. *)
Theorem entry_without_replies_has_no_thread_url w msg r m :
  In (EywaReport msg r) (main w) ->
  In m (post_matches r) ->
  comments m = 0 ->
  hn_url m = None.
Proof.
  intros Hrep Hin Hzero. apply reported_posts in Hrep.
  destruct (search_hn_posts_In _ _ _ _ _ _ Hrep Hin)
    as (p & page & dom & stories & story & _ & _ & _ & _ & _ & Hm).
  destruct (story_match_inv _ _ _ Hm)
    as (telem & link & meta & _ & _ & _ & _ & _ & _ & _ & Hnone & _).
  exact (Hnone Hzero).
Qed.

(** The fetches of a run that got its browser: those of the search, then
    those of the comment pass. *)
Lemma main_fetches w :
  chrome_failure w = None ->
  fetches (main w) =
    fetches (trace (search_of w))
      ++ match outcome (search_of w) with
         | Return posts => fetches (trace (comments_of w posts))
         | Raise _ => []
         end.
Proof.
  intros Hchrome. unfold main, main_finally.
  rewrite main_try_run, Hchrome.
  destruct (outcome (search_of w)) as [posts|e].
  - destruct (outcome (comments_of w posts)) as [found|e];
      cbn [outcome snd try_except main_except bind emit trace fst];
      rewrite !fetches_app; cbn [fetches flat_map app];
      rewrite ?app_nil_r; reflexivity.
  - cbn [outcome snd try_except main_except bind emit trace fst].
    rewrite !fetches_app. cbn [fetches flat_map app].
    rewrite ?app_nil_r. reflexivity.
Qed.

Lemma main_completes w posts found :
  chrome_failure w = None ->
  outcome (search_of w) = Return posts ->
  outcome (comments_of w posts) = Return found ->
  reports (main w) = [report_of w posts found] /\ closes (main w) = [SUCCESS].
Proof.
  intros Hchrome Hs Hc. pose proof (main_observed w) as Hobs.
  rewrite main_try_run, Hchrome, Hs, Hc in Hobs. cbn [outcome snd] in Hobs.
  destruct Hobs as (_ & Hclose & posts' & found' & Hs' & Hc' & Hr).
  injection Hs' as <-.
  rewrite Hc in Hc'. injection Hc' as <-. auto.
Qed.


(** The text stored for a comment: the comment's text when it has at
    most 200 code points, and otherwise its first 200 code points followed
    by three dots. *)
Lemma comment_match_text p u ttl comment m :
  comment_match p u ttl comment = Some (Some m) ->
  story_url m = u /\
  (200 < length (comment_text comment) ->
   c_comment_text m = firstn 200 (comment_text comment) ++ lit "..." /\
   length (c_comment_text m) = 203 /\
   utf8 (c_comment_text m) =
     utf8 (firstn 200 (comment_text comment)) ++ utf8 (lit "...") /\
   utf8 (comment_text comment) =
     utf8 (firstn 200 (comment_text comment))
       ++ utf8 (skipn 200 (comment_text comment))) /\
  (length (comment_text comment) <= 200 ->
   c_comment_text m = comment_text comment).
Proof.
  unfold comment_match. intros Hm.
  destruct (pattern_search p (comment_text comment)) as [matched|];
    [|discriminate].
  destruct (comhead comment) as [meta|]; [|discriminate].
  injection Hm as <-. cbn [c_comment_text story_url]. unfold display_text.
  split; [reflexivity|]. split.
  - intros Hlong. apply Nat.ltb_lt in Hlong as Hb. rewrite Hb.
    repeat split.
    + rewrite length_app, length_firstn.
      change (length (lit "...")) with 3. lia.
    + unfold utf8. apply flat_map_app.
    + unfold utf8. rewrite <- flat_map_app, firstn_skipn. reflexivity.
  - intros Hshort. apply Nat.ltb_ge in Hshort. rewrite Hshort. reflexivity.
Qed.

Lemma scan_comments_In p u ttl found : forall acc cm,
  In cm (scan_comments p u ttl found acc) ->
  In cm acc \/
  exists c, In c found /\ comment_match p u ttl c = Some (Some cm).
Proof.
  induction found as [|c rest IH]; intros acc cm Hin; [left; exact Hin|].
  cbn [scan_comments] in Hin.
  destruct (comment_match p u ttl c) as [[m|]|] eqn:Hc;
    apply IH in Hin as [Hin|(c' & Hc' & Hm)];
    try (left; exact Hin);
    try (right; exists c'; split; [right; exact Hc' | exact Hm]).
  apply in_app_or in Hin as [Hin|[<-|[]]]; [left; exact Hin|].
  right. exists c. split; [left; reflexivity | exact Hc].
Qed.

(** Every comment match of the comment pass was built from one of the
    first fifty comments of the discussion of an eligible entry. *)
Lemma check_posts_In site regex posts : forall acc out cm,
  outcome (check_posts site regex posts acc) = Return out ->
  In cm out ->
  In cm acc \/
  exists p m u dom found c,
    re_compile regex = inr p /\
    In m posts /\ hn_url m = Some u /\ eligible m = true /\
    site u = NavOk dom /\ dom_comment dom = Located found /\
    In c (firstn 50 found) /\
    comment_match p u (title m) c = Some (Some cm).
Proof.
  induction posts as [|m rest IH]; intros acc out cm Hout Hin.
  - injection Hout as <-. left. exact Hin.
  - assert (Hrest : forall acc',
      outcome (check_posts site regex rest acc') = Return out ->
      In cm acc' \/
      exists p m' u dom found c,
        re_compile regex = inr p /\
        In m' (m :: rest) /\ hn_url m' = Some u /\ eligible m' = true /\
        site u = NavOk dom /\ dom_comment dom = Located found /\
        In c (firstn 50 found) /\
        comment_match p u (title m') c = Some (Some cm)).
    { intros acc' Hout'.
      destruct (IH acc' out cm Hout' Hin)
        as [Hacc|(p & m' & u & dom & found & c & Hp & Hm' & Hrest)];
        [left; exact Hacc|].
      right. exists p, m', u, dom, found, c.
      split; [exact Hp | split; [right; exact Hm' | exact Hrest]]. }
    rewrite check_posts_cons in Hout.
    destruct (hn_url m) as [u|] eqn:Hu; [|apply Hrest; exact Hout].
    destruct (eligible m) eqn:He; [|apply Hrest; exact Hout].
    rewrite bind_trace_outcome, scrape_hn_comments_run in Hout.
    cbn [outcome snd trace fst] in Hout.
    destruct (site u) as [msg|dom] eqn:Hnav; [discriminate|].
    destruct (re_compile regex) as [msg|p] eqn:Hp; [discriminate|].
    cbn [outcome snd] in Hout.
    destruct (Hrest _ Hout) as [Hacc|Hex]; [|right; exact Hex].
    apply in_app_or in Hacc as [Hacc|Hfound]; [left; exact Hacc|].
    destruct (dom_comment dom) as [why|found] eqn:Hdom; [destruct Hfound|].
    apply scan_comments_In in Hfound as [[]|(c & Hc & Hm)].
    right. exists p, m, u, dom, found, c.
    repeat split; try assumption. left. reflexivity.
Qed.

(** C7: every comment match of a report was built from one of the first
    fifty comments of the discussion page it names; the text it stores is
    that comment's text when it has at most 200 code points, and otherwise
    its first 200 code points followed by three dots; the cut falls
    between two code points, so the UTF-8 bytes kept are a prefix of the
    comment's bytes that ends where the encoding of a code point ends. *)
Theorem comment_text_is_cut_at_200_code_points w msg r cm :
  In (EywaReport msg r) (main w) ->
  In cm (comment_matches r) ->
  exists dom found comment,
    site w (story_url cm) = NavOk dom /\
    dom_comment dom = Located found /\
    In comment (firstn 50 found) /\
    (200 < length (comment_text comment) ->
     c_comment_text cm = firstn 200 (comment_text comment) ++ lit "..." /\
     length (c_comment_text cm) = 203 /\
     utf8 (c_comment_text cm) =
       utf8 (firstn 200 (comment_text comment)) ++ utf8 (lit "...") /\
     utf8 (comment_text comment) =
       utf8 (firstn 200 (comment_text comment))
         ++ utf8 (skipn 200 (comment_text comment))) /\
    (length (comment_text comment) <= 200 ->
     c_comment_text cm = comment_text comment).
Proof.
  intros Hrep Hin. apply In_reports in Hrep.
  destruct (main_report_inv w r Hrep)
    as (posts & found & _ & Hc & -> & _).
  cbn [report_of prepare_report comment_matches] in Hin.
  unfold comments_of, comment_pass in Hc.
  destruct (check_comments_of w && nonempty posts).
  - destruct (check_posts_In _ _ _ _ _ _ Hc Hin)
      as [[]|(p & m & u & dom & cs & c & _ & _ & _ & _ & Hnav & Hdom
               & Hfifty & Hm)].
    destruct (comment_match_text _ _ _ _ _ Hm) as (Hurl & Hlong & Hshort).
    exists dom, cs, c. rewrite Hurl. auto.
  - injection Hc as <-. destruct Hin.
Qed.

End ReportedRun.

(** * The scenarios, replayed *)

Module Replay.

Import Literal Scenario Runs.

(** Scenario B: with a budget of two, the first two of the four matching
    entries of the first page are returned and one page is fetched. *)
Example scenario_B :
  search_of budget_world =
    ([DriverGet (page_url "robots" 1)],
     Return (post_matches budget_report)) /\
  map title (post_matches budget_report) = [lit "Robot one"; lit "ROBOT two"].
Proof. split; vm_compute; reflexivity. Qed.

(** Case-insensitive matching, and the metadata of an entry. *)
Example scenario_first_page :
  map (fun m => (title m, points m, comments m, time m, matched_text m))
      first_page_matches =
    [(lit "EYWA released", 10, 4, lit "1 hour ago", lit "EYWA");
     (lit "Why eywa", 5, 0, lit "2 hours ago", lit "eywa");
     (lit "eywa robots", 8, 2, lit "3 hours ago", lit "eywa")].
Proof. vm_compute. reflexivity. Qed.

Lemma report_total_at_budget_world :
  In (EywaReport (lit "HN scraping complete") budget_report)
     (main budget_world) /\
  total_matches budget_report =
    length (post_matches budget_report)
      + length (comment_matches budget_report).
Proof.
  assert (H : In (EywaReport (lit "HN scraping complete") budget_report)
                 (main budget_world))
    by (vm_compute; do 2 right; left; reflexivity).
  split; [exact H | exact (report_total_is_sum_of_lengths _ _ _ H)].
Defined.

Lemma budget_of_two_is_respected :
  (0 <= 2)%Z /\
  length (fetches (trace (search_of budget_world))) <= 5 /\
  (forall out,
     outcome (search_of budget_world) = Return out ->
     (Z.of_nat (length out) <= 2)%Z /\
     exists p,
       re_compile (lit "robot") = inr p /\
       out = firstn 2 (traversal (site budget_world) p (lit "robots") 1 5)).
Proof.
  assert (H : (0 <= 2)%Z) by lia.
  destruct (search_respects_budget_and_page_ceiling
              (site budget_world) (lit "robots") (lit "robot") 2 H)
    as (Hpages & _ & _ & Hout).
  split; [exact H | split; [exact Hpages | exact Hout]].
Defined.

Lemma failed_wait_at_the_second_page :
  search_guard 10 2 first_page_matches = true /\
  site exhausted_world (page_url "EYWA" 2) = NavOk blank /\
  dom_Story blank = NotLocated WaitTimeout /\
  search_loop (site exhausted_world) (lit "eywa") (lit "EYWA") 10 2
              first_page_matches =
    ([DriverGet (page_url "EYWA" 2)], Return first_page_matches).
Proof.
  assert (Hg : search_guard 10 2 first_page_matches = true) by reflexivity.
  assert (Hn : site exhausted_world (page_url "EYWA" 2) = NavOk blank)
    by (vm_compute; reflexivity).
  split; [exact Hg | split; [exact Hn | split; [reflexivity|]]].
  exact (proj1 (failed_wait_ends_pagination (site exhausted_world)
                  (lit "eywa") (lit "EYWA") 10 2 first_page_matches Hg)
               blank WaitTimeout Hn eq_refl).
Defined.

(** The navigation to the second page raises after three matches were
    accumulated: the search raises instead of returning them, and the run
    ends in [ERROR]. *)
Lemma navigation_error_aborts_the_search :
  search_guard 10 2 first_page_matches = true /\
  ~ page_fetch_failure_is_tolerated (site unreachable_world)
      (lit "eywa") (lit "EYWA") 10 2 first_page_matches /\
  outcome (search_of unreachable_world) =
    Raise (WebDriverException (lit "net::ERR_CONNECTION_RESET")) /\
  closes (main unreachable_world) = [ERROR].
Proof.
  split; [reflexivity | split; [|split; vm_compute; reflexivity]].
  intros H. unfold page_fetch_failure_is_tolerated in H.
  assert (Hfail : page_fetch_fails (site unreachable_world)
                    (search_url (lit "EYWA") 2)) by (vm_compute; exact I).
  specialize (H Hfail). vm_compute in H. discriminate H.
Qed.

Lemma unreachable_page_fails_the_run :
  outcome (main_try unreachable_world) =
    Raise (WebDriverException (lit "net::ERR_CONNECTION_RESET")) /\
  reports (main unreachable_world) = [] /\
  errors (main unreachable_world) =
    [lit "Robot failed: " ++ lit "net::ERR_CONNECTION_RESET"] /\
  closes (main unreachable_world) = [ERROR].
Proof.
  assert (H : outcome (main_try unreachable_world) =
              Raise (WebDriverException (lit "net::ERR_CONNECTION_RESET")))
    by (vm_compute; reflexivity).
  split; [exact H|].
  exact (proj1 (failure_sends_error_and_no_report unreachable_world) _ H).
Defined.

(** The first discussion cannot be reached after three entries were
    matched: the run fails and hands no report over, not even a partial
    one. *)
Lemma failed_run_hands_over_no_report :
  outcome (search_of broken_thread_world) = Return first_page_matches /\
  ~ partial_report_on_failure broken_thread_world.
Proof.
  split; [vm_compute; reflexivity|].
  intros H.
  assert (Hfail : run_failed broken_thread_world)
    by (vm_compute; do 5 right; left; reflexivity).
  destruct (H Hfail) as [r Hr]. vm_compute in Hr. exact Hr.
Qed.

(** Scenario C. *)
Lemma unbalanced_parenthesis_fails_the_run :
  re_compile (regex_pattern_of invalid_pattern_world) =
    inl (lit "missing ), unterminated subpattern") /\
  fetches (main invalid_pattern_world) = [] /\
  reports (main invalid_pattern_world) = [] /\
  closes (main invalid_pattern_world) = [ERROR].
Proof.
  assert (H : re_compile (regex_pattern_of invalid_pattern_world) =
              inl (lit "missing ), unterminated subpattern"))
    by (vm_compute; reflexivity).
  destruct (invalid_pattern_fails_before_any_fetch invalid_pattern_world _ H)
    as (Hf & Hr & Hc & _).
  split; [exact H | split; [exact Hf | split; [exact Hr | exact Hc]]].
Defined.



Lemma comment_of_201_code_points_is_cut :
  In (EywaReport (lit "HN scraping complete") long_comment_report)
     (main long_comment_world) /\
  In long_comment_match (comment_matches long_comment_report) /\
  exists dom found comment,
    site long_comment_world (lit "http://hn/1") = NavOk dom /\
    dom_comment dom = Located found /\
    In comment (firstn 50 found) /\
    (200 < length (comment_text comment) ->
     c_comment_text long_comment_match =
       firstn 200 (comment_text comment) ++ lit "..." /\
     length (c_comment_text long_comment_match) = 203 /\
     utf8 (c_comment_text long_comment_match) =
       utf8 (firstn 200 (comment_text comment)) ++ utf8 (lit "...") /\
     utf8 (comment_text comment) =
       utf8 (firstn 200 (comment_text comment))
         ++ utf8 (skipn 200 (comment_text comment))) /\
    (length (comment_text comment) <= 200 ->
     c_comment_text long_comment_match = comment_text comment).
Proof.
  assert (Hr : In (EywaReport (lit "HN scraping complete")
                     long_comment_report) (main long_comment_world))
    by (vm_compute; do 5 right; left; reflexivity).
  assert (Hm : In long_comment_match (comment_matches long_comment_report))
    by (vm_compute; left; reflexivity).
  split; [exact Hr | split; [exact Hm|]].
  exact (comment_text_is_cut_at_200_code_points _ _ _ _ Hr Hm).
Defined.

(** The comment of 201 code points takes 397 bytes; 395 of them are kept,
    the two bytes of the last code point are dropped together. *)
Example long_comment_bytes :
  length (comment_text long_comment) = 201 /\
  length (utf8 (comment_text long_comment)) = 397 /\
  length (utf8 (firstn 200 (comment_text long_comment))) = 395 /\
  length (utf8 (c_comment_text long_comment_match)) = 398 /\
  utf8_char 233%N = [195%N; 169%N].
Proof. repeat split; vm_compute; reflexivity. Qed.

(** A title link without [href] yields a reported entry without URL; a
    title link without text, under the empty pattern, yields a reported
    entry with an empty title. *)
Lemma bare_links_are_reported :
  (reports (main no_href_world) = [no_href_report] /\
   exists m,
     post_matches no_href_report = [m] /\
     title m = lit "eywa news" /\ url m = None /\ ~ well_formed_entry m) /\
  (reports (main bare_link_world) = [bare_link_report] /\
   exists m,
     post_matches bare_link_report = [m] /\
     title m = [] /\ ~ well_formed_entry m).
Proof.
  split; (split; [vm_compute; reflexivity|]);
    eexists; (split; [vm_compute; reflexivity|]).
  - split; [reflexivity | split; [reflexivity|]].
    intros [_ Hurl]. apply Hurl. reflexivity.
  - split; [reflexivity|]. intros [Htitle _]. apply Htitle. reflexivity.
Qed.

Lemma reported_entry_copies_its_title_link :
  In (EywaReport (lit "HN scraping complete") exhausted_report)
     (main exhausted_world) /\
  In eywa_released (post_matches exhausted_report) /\
  title eywa_released = lit "EYWA released" /\
  title eywa_released <> [].
Proof.
  assert (Hr : In (EywaReport (lit "HN scraping complete") exhausted_report)
                  (main exhausted_world))
    by (vm_compute; do 3 right; left; reflexivity).
  assert (Hm : In eywa_released (post_matches exhausted_report))
    by (vm_compute; left; reflexivity).
  destruct (entry_match_copies_the_title_link _ _ _ _ Hr Hm)
    as (p & page & dom & stories & story & telem & link & Hp & _ & _ & _ & _
        & _ & _ & _ & _ & _ & Hnonempty).
  split; [exact Hr | split; [exact Hm | split; [reflexivity|]]].
  apply Hnonempty.
  assert (Hq : re_compile (regex_pattern_of exhausted_world) =
               inr (lit "eywa")) by (vm_compute; reflexivity).
  rewrite Hq in Hp. injection Hp as <-. vm_compute. reflexivity.
Defined.

Lemma matching_title_without_discussion_link_is_skipped :
  Story_title no_discussion_link =
    Some {| title_anchor :=
              Some {| a_text := lit "EYWA on air";
                      a_href := Some (lit "http://c/1") |} |} /\
  pattern_search (lit "eywa") (lit "EYWA on air") = Some (lit "EYWA") /\
  search_comments (lit "3 points | 1 hour ago | 7 comments") = Some 7 /\
  comment_link no_discussion_link = None /\
  story_match (lit "eywa") no_discussion_link = None /\
  search_hn_posts (pages skipped_site) (lit "EYWA") (lit "eywa") 10 =
    ([DriverGet (page_url "EYWA" 1); DriverGet (page_url "EYWA" 2)],
     Return []).
Proof.
  assert (Hmatch : pattern_search (lit "eywa") (lit "EYWA on air") <> None)
    by (vm_compute; discriminate).
  assert (Hn : search_comments (lit "3 points | 1 hour ago | 7 comments")
               = Some 7) by (vm_compute; reflexivity).
  destruct (@matching_title_is_skipped_when_discussion_link_is_missing
              regex (lit "eywa") 10 no_discussion_link [] []
              {| title_anchor :=
                   Some {| a_text := lit "EYWA on air";
                           a_href := Some (lit "http://c/1") |} |}
              {| a_text := lit "EYWA on air";
                 a_href := Some (lit "http://c/1") |}
              (lit "3 points | 1 hour ago | 7 comments") 6
              eq_refl eq_refl eq_refl Hmatch Hn eq_refl)
    as (Hskip & _).
  split; [reflexivity | split; [vm_compute; reflexivity|]].
  split; [exact Hn | split; [reflexivity | split; [exact Hskip|]]].
  vm_compute. reflexivity.
Defined.

Lemma entry_with_no_comment_has_no_thread_url :
  In (EywaReport (lit "HN scraping complete") exhausted_report)
     (main exhausted_world) /\
  In why_eywa (post_matches exhausted_report) /\
  comments why_eywa = 0 /\
  story_match (lit "eywa") why_eywa_story = Some (Some why_eywa) /\
  option_map a_href (comment_link why_eywa_story) =
    Some (Some (lit "http://hn/3")) /\
  hn_url why_eywa = None.
Proof.
  assert (Hr : In (EywaReport (lit "HN scraping complete") exhausted_report)
                  (main exhausted_world))
    by (vm_compute; do 3 right; left; reflexivity).
  assert (Hm : In why_eywa (post_matches exhausted_report))
    by (vm_compute; right; left; reflexivity).
  assert (Hz : comments why_eywa = 0) by reflexivity.
  split; [exact Hr | split; [exact Hm | split; [exact Hz|]]].
  split; [vm_compute; reflexivity | split; [vm_compute; reflexivity|]].
  exact (entry_without_replies_has_no_thread_url _ _ _ _ Hr Hm Hz).
Defined.

End Replay.

(** * Further properties of the robot *)

(** ** Lists *)

Lemma firstn_prefix {A} (l : list A) : forall n n',
  n <= n' -> exists rest, firstn n' l = firstn n l ++ rest.
Proof.
  induction l as [|x l IH]; intros n n' Hle.
  - exists []. rewrite !firstn_nil. reflexivity.
  - destruct n as [|n]; [exists (firstn n' (x :: l)); reflexivity|].
    destruct n' as [|n']; [lia|].
    destruct (IH n n') as [rest Hrest]; [lia|].
    exists rest. cbn. rewrite Hrest. reflexivity.
Qed.

Lemma subsequence_refl {A} (l : list A) : subsequence l l.
Proof. induction l; constructor; assumption. Qed.

Lemma subsequence_app {A} (a b c d : list A) :
  subsequence a b -> subsequence c d -> subsequence (a ++ c) (b ++ d).
Proof.
  intros Hab Hcd. induction Hab as [l|x l1 l2 _ IH|x l1 l2 _ IH]; cbn.
  - induction l as [|y l IH]; cbn; [exact Hcd | constructor; exact IH].
  - constructor. exact IH.
  - constructor. exact IH.
Qed.

Lemma subsequence_firstn {A} (a b : list A) :
  subsequence a b -> forall n, subsequence (firstn n a) b.
Proof.
  intros Hab. induction Hab as [l|x l1 l2 _ IH|x l1 l2 _ IH]; intros n.
  - rewrite firstn_nil. constructor.
  - destruct n as [|n]; cbn; constructor. apply IH.
  - constructor. apply IH.
Qed.

Lemma Forall2_firstn {A B} (R : A -> B -> Prop) a b :
  Forall2 R a b -> forall n, Forall2 R (firstn n a) (firstn n b).
Proof.
  intros H. induction H as [|x y a b Hxy _ IH]; intros n.
  - rewrite !firstn_nil. constructor.
  - destruct n as [|n]; cbn; constructor; [exact Hxy | apply IH].
Qed.

(** ** Text *)

Lemma lit_inj s1 s2 : lit s1 = lit s2 -> s1 = s2.
Proof.
  unfold lit. intros H.
  rewrite <- (string_of_list_ascii_of_string s1),
          <- (string_of_list_ascii_of_string s2).
  f_equal. revert H.
  generalize (list_ascii_of_string s1) (list_ascii_of_string s2).
  intros l. induction l as [|a l IH]; intros [|b l']; cbn; intros H;
    try discriminate; [reflexivity|].
  injection H as Ha Hl. f_equal; [|apply IH; exact Hl].
  rewrite <- (ascii_N_embedding a), <- (ascii_N_embedding b), Ha.
  reflexivity.
Qed.

(** Two numbers that print alike are equal. *)
Lemma str_of_nat_inj n m : str_of_nat n = str_of_nat m -> n = m.
Proof.
  unfold str_of_nat. intros H. apply lit_inj in H.
  assert (Hu : Some (Nat.to_uint n) = Some (Nat.to_uint m))
    by (rewrite <- !NilEmpty.usu, H; reflexivity).
  injection Hu as Hu.
  rewrite <- (Unsigned.of_to n), <- (Unsigned.of_to m), Hu. reflexivity.
Qed.

Lemma search_url_inj t page page' :
  search_url t (S page) = search_url t (S page') -> page = page'.
Proof.
  unfold search_url. intros H.
  do 3 apply app_inv_head in H. apply str_of_nat_inj in H.
  cbn in H. rewrite !Nat.sub_0_r in H. exact H.
Qed.

(** ** More of the search controller *)

Section SearchMore.

Context {RE : Regex}.
Variable site : str -> navigation.

(** X1: the search never fetches the same result page twice, and every
    URL it fetches is the search URL with a zero-based page index below
    five. *)
Theorem search_never_fetches_a_page_twice t regex max :
  NoDup (fetches (trace (search_hn_posts site t regex max))) /\
  forall u,
    In u (fetches (trace (search_hn_posts site t regex max))) ->
    exists i,
      i < 5 /\
      u = lit "https://hn.algolia.com/?query=" ++ t
            ++ lit "&sort=byDate&page=" ++ str_of_nat i.
Proof.
  rewrite search_hn_posts_run.
  destruct (re_compile regex) as [msg|p].
  - split; [constructor | intros u []].
  - destruct (@search_loop_spec _ site p t max 5 1 [] (Nat.le_refl 5))
      as (k & Htr & Hk & _).
    rewrite Htr, fetches_map, <- seq_shift, map_map. split.
    + apply NoDup_map_NoDup_ForallPairs; [|apply seq_NoDup].
      intros i j _ _ Hij. apply (search_url_inj t). exact Hij.
    + intros u Hu. apply in_map_iff in Hu as (i & <- & Hi).
      apply in_seq in Hi. exists i. split; [lia|].
      unfold search_url. cbn [Nat.sub]. rewrite Nat.sub_0_r. reflexivity.
Qed.

(** How many pages the loop fetches from any state: a further page is
    fetched exactly when the ceiling is not passed, every page before it
    showed stories and the matches held are fewer than the budget. *)
Lemma search_loop_fetch_count p t max n : forall page ms k,
  6 - page <= n ->
  (k < length (fetches (trace (search_loop site p t max page ms))) <->
   page + k <= 5 /\
   (forall j, page <= j < page + k -> page_loads site t j) /\
   (Z.of_nat (length ms + length (traversal site p t page k)) < max)%Z).
Proof.
  induction n as [|n IH]; intros page ms k Hn;
    rewrite search_loop_step;
    destruct (search_guard max page ms) eqn:Hguard;
    try (apply search_guard_false in Hguard;
         cbn [trace fst ret fetches flat_map length];
         split; [lia | intros (Hk & _ & Hlen); rewrite Nat2Z.inj_add in Hlen;
                       lia]).
  - apply search_guard_true in Hguard. lia.
  - apply search_guard_true in Hguard as [Hlt Hpage].
    rewrite search_page_run.
    assert (Hzero : (Z.of_nat (length ms + length (traversal site p t page 0))
                     < max)%Z) by (cbn [traversal length]; lia).
    destruct (site (search_url t page)) as [msg|dom] eqn:Hnav.
    + cbn [bind trace fst fetches flat_map app length]. split.
      * intros Hk. replace k with 0 by lia.
        split; [lia | split; [intros j Hj; lia | exact Hzero]].
      * intros (_ & Hload & _). destruct k as [|k]; [lia|].
        destruct (Hload page ltac:(lia)) as (dom & stories & Hnav' & _).
        rewrite Hnav in Hnav'. discriminate.
    + destruct (dom_Story dom) as [why|stories] eqn:Hdom.
      * cbn [bind ret trace fst fetches flat_map app length]. split.
        -- intros Hk. replace k with 0 by lia.
           split; [lia | split; [intros j Hj; lia | exact Hzero]].
        -- intros (_ & Hload & _). destruct k as [|k]; [lia|].
           destruct (Hload page ltac:(lia)) as (dom' & stories & Hnav' & Hd).
           rewrite Hnav in Hnav'. injection Hnav' as <-.
           rewrite Hdom in Hd. discriminate.
      * rewrite bind_return with (a := Continue (scan_stories p max stories ms))
          by reflexivity.
        cbv beta iota. cbn [trace fst].
        rewrite fetches_app, length_app. cbn [fetches flat_map app length].
        rewrite Nat.add_1_r.
        destruct k as [|k].
        { split; [intros _|lia].
          split; [lia | split; [intros j Hj; lia | exact Hzero]]. }
        rewrite (scan_stories_spec p max stories ms Hlt).
        specialize (IH (S page)
                       (ms ++ firstn (Z.to_nat (max - Z.of_nat (length ms)))
                                     (page_matches p stories))
                       k ltac:(lia)).
        rewrite (traversal_loaded site p t page k dom stories Hnav Hdom).
        set (b := Z.to_nat (max - Z.of_nat (length ms))) in *.
        set (pm := page_matches p stories) in *.
        set (rest := traversal site p t (S page) k) in *.
        rewrite !length_app, length_firstn in IH. rewrite length_app.
        split.
        -- intros Hk. apply Nat.succ_lt_mono in Hk. apply IH in Hk
             as (Hc & Hload & Hlen).
           split; [lia | split; [|lia]].
           intros j Hj. destruct (Nat.eq_dec j page) as [->|Hne].
           ++ exists dom, stories. split; assumption.
           ++ apply Hload. lia.
        -- intros (Hc & Hload & Hlen). apply -> Nat.succ_lt_mono.
           apply IH. split; [lia | split; [|lia]].
           intros j Hj. apply Hload. lia.
Qed.

(** X2: the search fetches a further result page exactly when fewer than
    five pages were fetched, every page fetched so far showed stories and
    their matches are fewer than the budget.  In particular the end of
    the results is only found by fetching the page after the last one. *)
Theorem next_page_is_fetched_iff t regex p max k :
  re_compile regex = inr p ->
  (k < length (fetches (trace (search_hn_posts site t regex max))) <->
   k < 5 /\
   (forall j, 1 <= j <= k -> page_loads site t j) /\
   (Z.of_nat (length (traversal site p t 1 k)) < max)%Z).
Proof.
  intros Hp. rewrite search_hn_posts_run, Hp.
  rewrite (search_loop_fetch_count p t max 5 1 [] k (Nat.le_refl 5)).
  cbn [length Nat.add]. split.
  - intros (Hk & Hload & Hlen).
    split; [lia | split; [|exact Hlen]].
    intros j Hj. apply Hload. lia.
  - intros (Hk & Hload & Hlen).
    split; [lia | split; [|exact Hlen]].
    intros j Hj. apply Hload. lia.
Qed.

(** X3: with a budget of zero or less the search fetches nothing and
    returns no match; it still fails on a pattern that does not
    compile. *)
Theorem non_positive_budget_fetches_nothing t regex max :
  (max <= 0)%Z ->
  search_hn_posts site t regex max =
    match re_compile regex with
    | inl msg => ([], Raise (re_error msg))
    | inr _ => ([], Return [])
    end.
Proof.
  intros Hmax. rewrite search_hn_posts_run.
  destruct (re_compile regex) as [msg|p]; [reflexivity|].
  rewrite search_loop_step.
  assert (Hguard : search_guard max 1 [] = false)
    by (apply search_guard_false; left; cbn; lia).
  rewrite Hguard. reflexivity.
Qed.

(** X4: raising the budget only appends: when the search returns under
    two budgets, the result under the smaller one is a prefix of the
    result under the larger one. *)
Theorem larger_budget_extends_the_result t regex max max' out out' :
  (max <= max')%Z ->
  outcome (search_hn_posts site t regex max) = Return out ->
  outcome (search_hn_posts site t regex max') = Return out' ->
  exists more, out' = out ++ more.
Proof.
  intros Hle Hout Hout'.
  destruct (search_hn_posts_result site t regex max out Hout)
    as (p & Hp & ->).
  destruct (search_hn_posts_result site t regex max' out' Hout')
    as (p' & Hp' & ->).
  rewrite Hp in Hp'. injection Hp' as <-.
  apply firstn_prefix. lia.
Qed.

Lemma page_matches_subsequence p stories :
  exists ss,
    subsequence ss stories /\
    Forall2 (fun story m => story_match p story = Some (Some m))
            ss (page_matches p stories).
Proof.
  induction stories as [|story rest (ss & Hsub & Hall)].
  - exists []. split; constructor.
  - unfold page_matches. cbn [flat_map]. fold (page_matches p rest).
    destruct (story_match p story) as [[m|]|] eqn:Hm; cbn [app].
    + exists (story :: ss). split; constructor; assumption.
    + exists ss. split; [constructor|]; assumption.
    + exists ss. split; [constructor|]; assumption.
Qed.

Lemma traversal_subsequence p t n : forall page,
  exists ss,
    subsequence ss (shown_stories site t page n) /\
    Forall2 (fun story m => story_match p story = Some (Some m))
            ss (traversal site p t page n).
Proof.
  induction n as [|n IH]; intros page; cbn [shown_stories traversal].
  - exists []. split; constructor.
  - destruct (site (search_url t page)) as [msg|dom];
      [exists []; split; constructor|].
    destruct (dom_Story dom) as [why|stories];
      [exists []; split; constructor|].
    destruct (page_matches_subsequence p stories) as (ss1 & Hsub1 & Hall1).
    destruct (IH (S page)) as (ss2 & Hsub2 & Hall2).
    exists (ss1 ++ ss2). split.
    + apply subsequence_app; assumption.
    + apply Forall2_app; assumption.
Qed.

(** X5: the result keeps the order of the pages: its matches are built,
    one each and in this order, from stories that appear in this order in
    the pages shown, first page first; nothing is sorted and no story is
    matched twice. *)
Theorem search_result_keeps_page_order t regex max out :
  outcome (search_hn_posts site t regex max) = Return out ->
  exists p stories,
    re_compile regex = inr p /\
    subsequence stories (shown_stories site t 1 5) /\
    Forall2 (fun story m => story_match p story = Some (Some m))
            stories out.
Proof.
  intros Hout.
  destruct (search_hn_posts_result site t regex max out Hout)
    as (p & Hp & ->).
  destruct (traversal_subsequence p t 5 1) as (ss & Hsub & Hall).
  exists p, (firstn (Z.to_nat max) ss).
  split; [exact Hp | split].
  - apply subsequence_firstn. exact Hsub.
  - apply Forall2_firstn. exact Hall.
Qed.


End SearchMore.

(** ** More of the thread traverser *)

Section ThreadMore.

Context {RE : Regex}.
Variable site : str -> navigation.

Lemma subsequence_length {A} (a b : list A) :
  subsequence a b -> length a <= length b.
Proof.
  intros H. induction H; cbn; lia.
Qed.

(** The scan of a discussion appends, in document order, the matches of
    the comments that yield one. *)
Lemma scan_comments_subsequence p u ttl found : forall acc,
  exists cs more,
    scan_comments p u ttl found acc = acc ++ more /\
    subsequence cs found /\
    Forall2 (fun c cm => comment_match p u ttl c = Some (Some cm)) cs more.
Proof.
  induction found as [|c rest IH]; intros acc; cbn [scan_comments].
  - exists [], []. rewrite app_nil_r. repeat split; constructor.
  - destruct (comment_match p u ttl c) as [[cm|]|] eqn:Hc.
    + destruct (IH (acc ++ [cm])) as (cs & more & Hscan & Hsub & Hall).
      exists (c :: cs), (cm :: more). rewrite Hscan, <- app_assoc.
      repeat split; constructor; assumption.
    + destruct (IH acc) as (cs & more & Hscan & Hsub & Hall).
      exists cs, more. repeat split; try assumption. constructor. exact Hsub.
    + destruct (IH acc) as (cs & more & Hscan & Hsub & Hall).
      exists cs, more. repeat split; try assumption. constructor. exact Hsub.
Qed.

Lemma comment_match_tags p u ttl c cm :
  comment_match p u ttl c = Some (Some cm) ->
  story_url cm = u /\ story_title cm = ttl /\
  pattern_search p (comment_text c) = Some (c_matched_text cm) /\
  exists header,
    comhead c = Some header /\
    user cm = hd (lit "unknown") (hnuser header).
Proof.
  unfold comment_match. intros Hm.
  destruct (pattern_search p (comment_text c)) as [matched|]; [|discriminate].
  destruct (comhead c) as [header|]; [|discriminate].
  injection Hm as <-. cbn.
  repeat split. exists header. split; [reflexivity|].
  destruct (hnuser header); reflexivity.
Qed.

(** X7: [scrape_hn_comments] issues exactly one fetch, of the story URL,
    on every path, and only then compiles the pattern, so that a pattern
    that does not compile fails it after the fetch; when it returns, its
    matches are built, one each and in document order, from comments
    among the first fifty of the page, hence at most fifty, and each
    carries the story title and URL it was called with. *)
Theorem scrape_fetches_once_and_reads_fifty_comments u regex ttl :
  trace (scrape_hn_comments site u regex ttl) = [DriverGet u] /\
  (forall dom msg,
     site u = NavOk dom -> re_compile regex = inl msg ->
     outcome (scrape_hn_comments site u regex ttl) = Raise (re_error msg)) /\
  (forall out,
     outcome (scrape_hn_comments site u regex ttl) = Return out ->
     length out <= 50 /\
     Forall (fun cm => story_url cm = u /\ story_title cm = ttl) out /\
     exists p dom, 
       re_compile regex = inr p /\ site u = NavOk dom /\
       match dom_comment dom with
       | NotLocated _ => out = []
       | Located found =>
           exists cs,
             subsequence cs (firstn 50 found) /\
             Forall2 (fun c cm => comment_match p u ttl c = Some (Some cm))
                     cs out
       end).
Proof.
  rewrite scrape_hn_comments_run. cbn [trace fst outcome snd].
  split; [reflexivity | split].
  - intros dom msg -> ->. reflexivity.
  - intros out Hout.
    destruct (site u) as [msg|dom]; [discriminate|].
    destruct (re_compile regex) as [msg|p]; [discriminate|].
    destruct (dom_comment dom) as [why|found] eqn:Hdom;
      cbv beta match in Hout.
    + assert (Heq : out = []) by congruence. subst out.
      split; [cbn; lia | split; [constructor|]].
      exists p, dom. rewrite Hdom. auto.
    + assert (Heq : out = scan_comments p u ttl (firstn 50 found) [])
        by congruence.
      destruct (scan_comments_subsequence p u ttl (firstn 50 found) [])
        as (cs & more & Hscan & Hsub & Hall).
      rewrite Hscan in Heq. cbn [app] in Heq. subst out. clear Hout Hscan.
      split; [|split].
      * apply Forall2_length in Hall. rewrite <- Hall.
        apply subsequence_length in Hsub.
        pose proof (firstn_le_length 50 found). lia.
      * clear Hsub. induction Hall as [|c cm cs more Hc _ IH];
          constructor; [|exact IH].
        destruct (comment_match_tags p u ttl c cm Hc) as (Hu & Ht & _).
        auto.
      * exists p, dom. rewrite Hdom.
        split; [reflexivity | split; [reflexivity|]]. exists cs. auto.
Qed.

(** X8: a comment yields a comment match exactly when the pattern
    matches its text and its header element is found; the match then
    names as user the first [hnuser] of the header, or "unknown" when the
    header has none, and carries what the pattern matched. *)
Theorem comment_is_matched_iff p u ttl c :
  ((exists cm, comment_match p u ttl c = Some (Some cm)) <->
   pattern_search p (comment_text c) <> None /\ comhead c <> None) /\
  (forall cm,
     comment_match p u ttl c = Some (Some cm) ->
     pattern_search p (comment_text c) = Some (c_matched_text cm) /\
     exists header,
       comhead c = Some header /\
       user cm = hd (lit "unknown") (hnuser header)).
Proof.
  split; [split|].
  - intros (cm & Hc).
    destruct (comment_match_tags p u ttl c cm Hc)
      as (_ & _ & Hpat & header & Hh & _).
    rewrite Hpat, Hh. split; discriminate.
  - intros (Hpat & Hh). unfold comment_match.
    destruct (pattern_search p (comment_text c)); [|contradiction].
    destruct (comhead c); [|contradiction].
    eexists. reflexivity.
  - intros cm Hc.
    destruct (comment_match_tags p u ttl c cm Hc) as (_ & _ & Hpat & Hh).
    auto.
Qed.

(** The comment pass returns at most fifty matches for each entry it is
    given. *)
Lemma check_posts_length regex posts : forall acc out,
  outcome (check_posts site regex posts acc) = Return out ->
  length out <= length acc + 50 * length posts.
Proof.
  induction posts as [|m rest IH]; intros acc out Hout.
  - injection Hout as <-. cbn. lia.
  - assert (Hrest : forall acc',
              length acc' <= length acc + 50 ->
              outcome (check_posts site regex rest acc') = Return out ->
              length out <= length acc + 50 * length (m :: rest)).
    { intros acc' Hacc Hout'. apply IH in Hout'. cbn [length]. lia. }
    rewrite check_posts_cons in Hout.
    destruct (hn_url m) as [u|]; [|apply (Hrest acc); [lia | exact Hout]].
    destruct (eligible m); [|apply (Hrest acc); [lia | exact Hout]].
    rewrite bind_trace_outcome in Hout.
    destruct (outcome (scrape_hn_comments site u regex (title m)))
      as [found|e] eqn:Hscrape; [|discriminate].
    cbn [outcome snd] in Hout.
    apply (Hrest (acc ++ found)); [|exact Hout].
    rewrite scrape_hn_comments_run in Hscrape. cbn [outcome snd] in Hscrape.
    destruct (site u) as [msg|dom]; [discriminate|].
    destruct (re_compile regex) as [msg|p]; [discriminate|].
    rewrite length_app.
    destruct (dom_comment dom) as [why|cs]; cbv beta match in Hscrape.
    { assert (Heq : found = []) by congruence. subst found. cbn. lia. }
    assert (Heq : found = scan_comments p u (title m) (firstn 50 cs) [])
      by congruence.
    destruct (scan_comments_subsequence p u (title m) (firstn 50 cs) [])
      as (cs' & more & Hscan & Hsub & Hall).
    rewrite Hscan in Heq. cbn [app] in Heq. subst found.
    apply Forall2_length in Hall. rewrite <- Hall.
    apply subsequence_length in Hsub.
    pose proof (firstn_le_length 50 cs). lia.
Qed.

End ThreadMore.

(** ** More of the run *)

Section RunMore.

Context {RE : Regex}.

Lemma thread_urls_length posts : length (thread_urls posts) <= length posts.
Proof.
  induction posts as [|m rest IH]; [cbn; lia|].
  rewrite thread_urls_cons. cbn [length].
  destruct (hn_url m); [destruct (eligible m)|]; cbn [length]; lia.
Qed.

Lemma search_of_fetches_length w :
  length (fetches (trace (search_of w))) <= 5.
Proof.
  unfold search_of. rewrite search_hn_posts_run.
  destruct (re_compile (regex_pattern_of w)) as [msg|p]; [cbn; lia|].
  destruct (@search_loop_spec _ (site w) p (search_term_of w)
              (max_results_of w) 5 1 [] (Nat.le_refl 5))
    as (k & Htr & Hk & _).
  rewrite Htr, fetches_map, length_map, length_seq. exact Hk.
Qed.

Lemma comments_of_fetches_length w posts :
  length (fetches (trace (comments_of w posts))) <= 5.
Proof.
  unfold comments_of, comment_pass.
  destruct (check_comments_of w && nonempty posts); [|cbn; lia].
  destruct (check_posts_trace (site w) (regex_pattern_of w)
              (firstn 5 posts) []) as [k Hk].
  rewrite Hk, fetches_map.
  pose proof (firstn_le_length k (thread_urls (firstn 5 posts))).
  pose proof (length_firstn k (thread_urls (firstn 5 posts))).
  pose proof (thread_urls_length (firstn 5 posts)).
  pose proof (firstn_le_length 5 posts). lia.
Qed.

(** X9: a run issues at most ten fetches: at most five result pages and
    at most five discussion pages. *)
Theorem run_issues_at_most_ten_fetches w :
  length (fetches (main w)) <= 10 /\
  (check_comments_of w = false -> length (fetches (main w)) <= 5).
Proof.
  destruct (chrome_failure w) as [msg|] eqn:Hchrome.
  - unfold main, main_finally. rewrite main_try_run, Hchrome. cbn.
    split; [lia | intros _; lia].
  - rewrite (main_fetches w Hchrome), length_app.
    pose proof (search_of_fetches_length w) as Hs.
    destruct (outcome (search_of w)) as [posts|e].
    + pose proof (comments_of_fetches_length w posts) as Hc.
      split; [lia|]. intros Hoff.
      unfold comments_of, comment_pass in *. rewrite Hoff. cbn. lia.
    + cbn. split; [lia | intros _; lia].
Qed.

(** X10: a report holds at most 250 comment matches, fifty for each of
    the five entries whose discussion may be read; with a budget that is
    not negative its total is at most the budget plus 250. *)
Theorem report_holds_at_most_250_comment_matches w msg r :
  In (EywaReport msg r) (main w) ->
  length (comment_matches r) <= 250 /\
  ((0 <= max_results_of w)%Z ->
   (Z.of_nat (total_matches r) <= max_results_of w + 250)%Z).
Proof.
  intros Hin. apply In_reports in Hin.
  destruct (main_report_inv w r Hin)
    as (posts & found & Hs & Hc & -> & _).
  cbn [report_of prepare_report comment_matches total_matches].
  assert (Hfound : length found <= 250).
  { unfold comments_of, comment_pass in Hc.
    destruct (check_comments_of w && nonempty posts).
    - apply check_posts_length in Hc.
      pose proof (firstn_le_length 5 posts). cbn [length] in Hc. lia.
    - injection Hc as <-. cbn. lia. }
  split; [exact Hfound|]. intros Hmax.
  destruct (search_hn_posts_result (site w) (search_term_of w)
              (regex_pattern_of w) (max_results_of w) posts Hs)
    as (p & _ & ->).
  pose proof (firstn_le_length (Z.to_nat (max_results_of w))
                (traversal (site w) p (search_term_of w) 1 5)).
  lia.
Qed.

(** X11: when comments are not to be checked the run fetches result
    pages only, and its report holds no comment match: its total is the
    number of entry matches. *)
Theorem unchecked_comments_cost_no_fetch w :
  chrome_failure w = None ->
  check_comments_of w = false ->
  fetches (main w) = fetches (trace (search_of w)) /\
  forall msg r,
    In (EywaReport msg r) (main w) ->
    comment_matches r = [] /\
    total_matches r = length (post_matches r).
Proof.
  intros Hchrome Hoff.
  assert (Hc : forall posts, comments_of w posts = ([], Return []))
    by (intros posts; unfold comments_of, comment_pass; rewrite Hoff;
        reflexivity).
  split.
  - rewrite (main_fetches w Hchrome).
    destruct (outcome (search_of w)) as [posts|e];
      [rewrite Hc|]; cbn [trace fst fetches flat_map];
      apply app_nil_r.
  - intros msg r Hin. apply In_reports in Hin.
    destruct (main_report_inv w r Hin)
      as (posts & found & _ & Hf & -> & _).
    rewrite Hc in Hf. injection Hf as <-.
    cbn. split; [reflexivity | lia].
Qed.

(** X12: a run that finds no matching entry is a success: it reads no
    discussion, reports a total of zero and closes the task with the
    [SUCCESS] status. *)
Theorem run_without_match_succeeds w :
  chrome_failure w = None ->
  outcome (search_of w) = Return [] ->
  fetches (main w) = fetches (trace (search_of w)) /\
  reports (main w) = [report_of w [] []] /\
  total_matches (report_of w [] []) = 0 /\
  closes (main w) = [SUCCESS] /\
  errors (main w) = [].
Proof.
  intros Hchrome Hs.
  assert (Hc : comments_of w [] = ([], Return []))
    by (unfold comments_of, comment_pass; rewrite andb_false_r;
        reflexivity).
  destruct (main_completes w [] [] Hchrome Hs) as (Hr & Hclose);
    [rewrite Hc; reflexivity|].
  split; [|split; [exact Hr | split; [reflexivity | split; [exact Hclose|]]]].
  - rewrite (main_fetches w Hchrome), Hs, Hc. apply app_nil_r.
  - assert (Hin : In (report_of w [] []) (reports (main w)))
      by (rewrite Hr; left; reflexivity).
    destruct (main_report_inv w _ Hin) as (_ & _ & _ & _ & _ & _ & _ & He).
    exact He.
Qed.

(** X13: once its browser has started, a run makes its calls in one
    fixed order: the task is set to [PROCESSING], pages are fetched, then
    either the report or one error message is sent, the task is closed
    with the matching status, and the browser is quit last. *)
Theorem run_follows_the_task_protocol w :
  chrome_failure w = None ->
  exists urls x s,
    main w =
      UpdateTask PROCESSING
        :: map DriverGet urls ++ [x; CloseTask s; DriverQuit] /\
    ((exists r, x = EywaReport (lit "HN scraping complete") r /\ s = SUCCESS)
     \/
     (exists e, x = EywaError (lit "Robot failed: " ++ exn_str e) /\
                s = ERROR)).
Proof.
  intros Hchrome. unfold main, main_finally.
  rewrite main_try_run, Hchrome.
  pose proof (search_of_only_fetches w) as Hs. unfold only_fetches in Hs.
  destruct (outcome (search_of w)) as [posts|e].
  - pose proof (comments_of_only_fetches w posts) as Hc.
    unfold only_fetches in Hc.
    exists (fetches (trace (search_of w))
            ++ fetches (trace (comments_of w posts))).
    rewrite map_app, <- Hs, <- Hc.
    destruct (outcome (comments_of w posts)) as [found|e].
    + exists (EywaReport (lit "HN scraping complete")
                         (report_of w posts found)), SUCCESS.
      cbn [try_except trace fst app]. rewrite <- !app_assoc.
      split; [reflexivity | left; eexists; split; reflexivity].
    + exists (EywaError (lit "Robot failed: " ++ exn_str e)), ERROR.
      cbn [try_except main_except bind emit trace fst app].
      rewrite <- !app_assoc.
      split; [reflexivity | right; eexists; split; reflexivity].
  - exists (fetches (trace (search_of w))),
           (EywaError (lit "Robot failed: " ++ exn_str e)), ERROR.
    rewrite <- Hs.
    cbn [try_except main_except bind emit trace fst app].
    rewrite <- !app_assoc.
    split; [reflexivity | right; eexists; split; reflexivity].
Qed.

(** X14: when the browser cannot be started the run does nothing else:
    it sends the error of the start, closes the task with the [ERROR]
    status, fetches nothing and has no browser to quit; the pattern is
    not even compiled. *)
Theorem browser_failure_ends_the_run w msg :
  chrome_failure w = Some msg ->
  main w =
    [UpdateTask PROCESSING; EywaError (lit "Robot failed: " ++ msg);
     CloseTask ERROR].
Proof.
  intros Hchrome. unfold main, main_finally.
  rewrite main_try_run, Hchrome. reflexivity.
Qed.

(** X15: a task without a ['data'] entry makes [main] run on its
    defaults, whatever else the task holds: the search term "EYWA", the
    pattern "EYWA|eywa", a budget of ten, no comment pass and a visible
    browser. *)
Theorem task_without_data_runs_on_defaults task w :
  task_entry (lit "data") task = None ->
  search_term_of (world_of_task task w) = lit "EYWA" /\
  regex_pattern_of (world_of_task task w) = lit "EYWA|eywa" /\
  max_results_of (world_of_task task w) = 10%Z /\
  check_comments_of (world_of_task task w) = false /\
  headless_of (world_of_task task w) = false /\
  main (world_of_task task w) = main (world_of_task [] w).
Proof.
  intros Hnone.
  assert (Hw : world_of_task task w = world_of_task [] w)
    by (unfold world_of_task, input_data_of; rewrite Hnone; reflexivity).
  rewrite Hw. repeat split.
Qed.

Lemma story_match_fields p story m :
  story_match p story = Some (Some m) ->
  match_type m = lit "title" /\
  exists meta,
    Story_meta story = Some meta /\
    points m = match search_points meta with Some n => n | None => 0 end /\
    time m =
      match search_time meta with Some t => t | None => lit "unknown" end.
Proof.
  unfold story_match. intros H.
  destruct (Story_title story) as [telem|]; [|discriminate].
  destruct (title_anchor telem) as [link|]; [|discriminate].
  destruct (Story_meta story) as [meta|]; [|discriminate].
  destruct (pattern_search p (a_text link)) as [matched|]; [|discriminate].
  destruct (0 <? match search_comments meta with Some n => n | None => 0 end).
  - destruct (comment_link story) as [a|]; [|discriminate].
    cbn in H. injection H as <-. cbn. split; [reflexivity|].
    exists meta. auto.
  - injection H as <-. cbn. split; [reflexivity|]. exists meta. auto.
Qed.

(** X16: every entry match of a report is tagged "title" and takes its
    numbers from the metadata line of its story: the points and the
    comment count read there, zero for either one that is not found, and
    the age, "unknown" when it is not found; when it counts comments its
    discussion URL is the [href] of the discussion link of the story. *)
Theorem reported_entry_metadata w msg r m :
  In (EywaReport msg r) (main w) ->
  In m (post_matches r) ->
  match_type m = lit "title" /\
  exists page dom stories story meta,
    1 <= page <= 5 /\
    site w (search_url (search_term_of w) page) = NavOk dom /\
    dom_Story dom = Located stories /\
    In story stories /\
    Story_meta story = Some meta /\
    points m = match search_points meta with Some n => n | None => 0 end /\
    comments m =
      match search_comments meta with Some n => n | None => 0 end /\
    time m =
      match search_time meta with Some t => t | None => lit "unknown" end /\
    (0 < comments m ->
     exists a, comment_link story = Some a /\ hn_url m = a_href a).
Proof.
  intros Hrep Hin. apply reported_posts in Hrep.
  destruct (search_hn_posts_In _ _ _ _ _ _ Hrep Hin)
    as (p & page & dom & stories & story & _ & Hpage & Hnav & Hdom & Hs & Hm).
  destruct (story_match_fields p story m Hm)
    as (Htype & meta & Hmeta & Hpoints & Htime).
  destruct (story_match_inv p story m Hm)
    as (_ & _ & meta' & _ & _ & Hmeta' & _ & _ & _ & Hc & _ & Hlink).
  rewrite Hmeta in Hmeta'. injection Hmeta' as <-.
  split; [exact Htype|].
  exists page, dom, stories, story, meta. auto 12.
Qed.

(** X17: the text stored for a comment has at most 203 code points and
    keeps the first 200 of the comment; cutting it again changes nothing;
    but it is longer than the comment itself exactly when the comment has
    201 or 202 code points. *)
Theorem display_text_bounds text :
  length (display_text text) <= 203 /\
  firstn 200 (display_text text) = firstn 200 text /\
  display_text (display_text text) = display_text text /\
  (length text < length (display_text text) <->
   length text = 201 \/ length text = 202).
Proof.
  assert (Hcut : forall t,
            200 < length t ->
            display_text t = firstn 200 t ++ lit "...")
    by (intros t Ht; unfold display_text; apply Nat.ltb_lt in Ht;
        rewrite Ht; reflexivity).
  assert (Hkept : forall t, length t <= 200 -> display_text t = t)
    by (intros t Ht; unfold display_text; apply Nat.ltb_ge in Ht;
        rewrite Ht; reflexivity).
  destruct (Nat.le_gt_cases (length text) 200) as [Hshort|Hlong].
  - rewrite !(Hkept text Hshort).
    split; [lia | split; [reflexivity | split; [reflexivity | lia]]].
  - rewrite (Hcut text Hlong).
    assert (Hfirst : length (firstn 200 text) = 200)
      by (rewrite length_firstn; lia).
    assert (Hlen : length (firstn 200 text ++ lit "...") = 203)
      by (rewrite length_app, Hfirst; reflexivity).
    assert (Hkeep : firstn 200 (firstn 200 text ++ lit "...")
                    = firstn 200 text).
    { rewrite firstn_app, Hfirst, Nat.sub_diag, firstn_O, app_nil_r.
      rewrite firstn_firstn. reflexivity. }
    rewrite Hlen.
    split; [lia | split; [exact Hkeep | split; [|lia]]].
    rewrite Hcut by lia. rewrite Hkeep. reflexivity.
Qed.

(** X18: Chrome is always given the four common arguments, in the same
    order; ["--headless"] comes first exactly in headless mode and
    ["--start-maximized"] comes last exactly in visible mode, so exactly
    one of the two is given, and no argument is given twice. *)
Theorem chrome_arguments_by_mode headless :
  chrome_arguments headless =
    (if headless then [lit "--headless"] else [])
      ++ [lit "--no-sandbox"; lit "--disable-dev-shm-usage";
          lit "--disable-gpu"; lit "--window-size=1920,1080"]
      ++ (if headless then [] else [lit "--start-maximized"]) /\
  (In (lit "--headless") (chrome_arguments headless) <-> headless = true) /\
  (In (lit "--start-maximized") (chrome_arguments headless) <->
   headless = false) /\
  length (chrome_arguments headless) = 5 /\
  NoDup (chrome_arguments headless).
Proof.
  assert (Hdec : forall (a : str) l,
            (if in_dec (list_eq_dec N.eq_dec) a l then True else False) ->
            In a l)
    by (intros a l; destruct (in_dec (list_eq_dec N.eq_dec) a l);
        [trivial | contradiction]).
  assert (Hndec : forall (a : str) l,
            (if in_dec (list_eq_dec N.eq_dec) a l then False else True) ->
            ~ In a l)
    by (intros a l; destruct (in_dec (list_eq_dec N.eq_dec) a l);
        [contradiction | trivial]).
  destruct headless; (split; [reflexivity|]); (split; [|split; [|split]]);
    try reflexivity.
  - split; [reflexivity | intros _; apply Hdec; vm_compute; exact I].
  - split; [|discriminate]. intros Hin. exfalso. revert Hin.
    apply Hndec. vm_compute. exact I.
  - repeat (constructor; [apply Hndec; vm_compute; exact I|]). constructor.
  - split; [|discriminate]. intros Hin. exfalso. revert Hin.
    apply Hndec. vm_compute. exact I.
  - split; [reflexivity | intros _; apply Hdec; vm_compute; exact I].
  - repeat (constructor; [apply Hndec; vm_compute; exact I|]). constructor.
Qed.

End RunMore.

(** * More scenarios, replayed *)

Module Replay2.

Import Literal Scenario Scenario2 Runs Runs2.

(** Scenario A, as the code runs it: the three pages are read, and a
    fourth fetch is what tells that there is no further page. *)
Lemma fourth_fetch_finds_the_end :
  re_compile (lit "alpha") = inr (lit "alpha") /\
  (3 < length (fetches (trace (search_hn_posts (site alpha_world)
                                 (lit "alpha") (lit "alpha") 10))) <->
   3 < 5 /\
   (forall j, 1 <= j <= 3 -> page_loads (site alpha_world) (lit "alpha") j) /\
   (Z.of_nat (length (traversal (site alpha_world) (lit "alpha")
                                (lit "alpha") 1 3)) < 10)%Z) /\
  search_hn_posts (site alpha_world) (lit "alpha") (lit "alpha") 10 =
    (map DriverGet (map (page_url "alpha") [1; 2; 3; 4]),
     Return alpha_result) /\
  map title alpha_result = [lit "The Alpha release"].
Proof.
  assert (Hp : re_compile (lit "alpha") = inr (lit "alpha")) by reflexivity.
  split; [exact Hp | split].
  - exact (next_page_is_fetched_iff (site alpha_world) (lit "alpha")
             (lit "alpha") (lit "alpha") 10 3 Hp).
  - split; vm_compute; reflexivity.
Defined.

Lemma budget_of_zero_fetches_nothing :
  (0 <= 0)%Z /\
  search_hn_posts (site zero_budget_world) (lit "EYWA") (lit "eywa") 0 =
    ([], Return []) /\
  main zero_budget_world =
    [UpdateTask PROCESSING;
     EywaReport (lit "HN scraping complete")
                (report_of zero_budget_world [] []);
     CloseTask SUCCESS; DriverQuit].
Proof.
  assert (H : (0 <= 0)%Z) by lia.
  split; [exact H | split].
  - rewrite (non_positive_budget_fetches_nothing (site zero_budget_world)
               (lit "EYWA") (lit "eywa") 0 H).
    reflexivity.
  - vm_compute. reflexivity.
Defined.

Lemma budget_of_three_extends_budget_of_two :
  (2 <= 3)%Z /\
  outcome (search_hn_posts (site budget_world) (lit "robots") (lit "robot") 2)
    = Return (firstn 2 (traversal (site budget_world) (lit "robot")
                                  (lit "robots") 1 5)) /\
  outcome (search_hn_posts (site budget_world) (lit "robots") (lit "robot") 3)
    = Return (firstn 3 (traversal (site budget_world) (lit "robot")
                                  (lit "robots") 1 5)) /\
  exists more,
    firstn 3 (traversal (site budget_world) (lit "robot") (lit "robots") 1 5)
    = firstn 2 (traversal (site budget_world) (lit "robot")
                          (lit "robots") 1 5) ++ more.
Proof.
  assert (Hle : (2 <= 3)%Z) by lia.
  assert (H2 : outcome (search_hn_posts (site budget_world) (lit "robots")
                          (lit "robot") 2)
               = Return (firstn 2 (traversal (site budget_world) (lit "robot")
                                             (lit "robots") 1 5)))
    by (vm_compute; reflexivity).
  assert (H3 : outcome (search_hn_posts (site budget_world) (lit "robots")
                          (lit "robot") 3)
               = Return (firstn 3 (traversal (site budget_world) (lit "robot")
                                             (lit "robots") 1 5)))
    by (vm_compute; reflexivity).
  split; [exact Hle | split; [exact H2 | split; [exact H3|]]].
  exact (larger_budget_extends_the_result (site budget_world) (lit "robots")
           (lit "robot") 2 3 _ _ Hle H2 H3).
Defined.

Lemma alpha_result_keeps_page_order :
  outcome (search_hn_posts (site alpha_world) (lit "alpha") (lit "alpha") 10)
    = Return alpha_result /\
  exists p stories,
    re_compile (lit "alpha") = inr p /\
    subsequence stories (shown_stories (site alpha_world) (lit "alpha") 1 5) /\
    Forall2 (fun story m => story_match p story = Some (Some m))
            stories alpha_result.
Proof.
  assert (H : outcome (search_hn_posts (site alpha_world) (lit "alpha")
                         (lit "alpha") 10) = Return alpha_result)
    by (vm_compute; reflexivity).
  split; [exact H|].
  exact (search_result_keeps_page_order (site alpha_world) (lit "alpha")
           (lit "alpha") 10 alpha_result H).
Defined.

(** A discussion of sixty matching comments gives fifty matches. *)
Lemma sixty_comments_give_fifty_matches :
  trace (scrape_hn_comments (site busy_world) (lit "http://hn/1")
                            (lit "eywa") (lit "EYWA released"))
    = [DriverGet (lit "http://hn/1")] /\
  exists out,
    outcome (scrape_hn_comments (site busy_world) (lit "http://hn/1")
                                (lit "eywa") (lit "EYWA released"))
      = Return out /\
    length out = 50 /\ length out <= 50 /\
    Forall (fun cm => story_url cm = lit "http://hn/1" /\
                      story_title cm = lit "EYWA released") out.
Proof.
  destruct (scrape_fetches_once_and_reads_fifty_comments (site busy_world)
              (lit "http://hn/1") (lit "eywa") (lit "EYWA released"))
    as (Htrace & _ & Hout).
  split; [exact Htrace|].
  eexists. split; [vm_compute; reflexivity|].
  split; [vm_compute; reflexivity|].
  match goal with
  | |- length ?out <= 50 /\ _ =>
      destruct (Hout out ltac:(vm_compute; reflexivity)) as (Hlen & Hall & _)
  end.
  split; [exact Hlen | exact Hall].
Defined.

Lemma busy_report_is_bounded :
  In (EywaReport (lit "HN scraping complete") busy_report) (main busy_world) /\
  length (comment_matches busy_report) = 51 /\
  length (comment_matches busy_report) <= 250 /\
  ((0 <= max_results_of busy_world)%Z ->
   (Z.of_nat (total_matches busy_report) <= max_results_of busy_world + 250)%Z).
Proof.
  assert (H : In (EywaReport (lit "HN scraping complete") busy_report)
                 (main busy_world))
    by (vm_compute; do 5 right; left; reflexivity).
  split; [exact H | split; [vm_compute; reflexivity|]].
  exact (report_holds_at_most_250_comment_matches busy_world _ _ H).
Defined.

Lemma unchecked_run_of_exhausted_world :
  chrome_failure exhausted_world = None /\
  check_comments_of exhausted_world = false /\
  fetches (main exhausted_world) = fetches (trace (search_of exhausted_world)) /\
  forall msg r,
    In (EywaReport msg r) (main exhausted_world) ->
    comment_matches r = [] /\ total_matches r = length (post_matches r).
Proof.
  assert (Hc : chrome_failure exhausted_world = None) by reflexivity.
  assert (Hoff : check_comments_of exhausted_world = false) by reflexivity.
  split; [exact Hc | split; [exact Hoff|]].
  exact (unchecked_comments_cost_no_fetch exhausted_world Hc Hoff).
Defined.

Lemma run_without_match_of_no_match_world :
  chrome_failure no_match_world = None /\
  outcome (search_of no_match_world) = Return [] /\
  check_comments_of no_match_world = true /\
  fetches (main no_match_world) = fetches (trace (search_of no_match_world)) /\
  reports (main no_match_world) = [report_of no_match_world [] []] /\
  total_matches (report_of no_match_world [] []) = 0 /\
  closes (main no_match_world) = [SUCCESS] /\
  errors (main no_match_world) = [].
Proof.
  assert (Hc : chrome_failure no_match_world = None) by reflexivity.
  assert (Hs : outcome (search_of no_match_world) = Return [])
    by (vm_compute; reflexivity).
  split; [exact Hc | split; [exact Hs | split; [reflexivity|]]].
  exact (run_without_match_succeeds no_match_world Hc Hs).
Defined.

Lemma protocol_of_unreachable_world :
  chrome_failure unreachable_world = None /\
  exists urls x s,
    main unreachable_world =
      UpdateTask PROCESSING
        :: map DriverGet urls ++ [x; CloseTask s; DriverQuit] /\
    ((exists r, x = EywaReport (lit "HN scraping complete") r /\ s = SUCCESS)
     \/
     (exists e, x = EywaError (lit "Robot failed: " ++ exn_str e) /\
                s = ERROR)).
Proof.
  assert (Hc : chrome_failure unreachable_world = None) by reflexivity.
  split; [exact Hc|].
  exact (run_follows_the_task_protocol unreachable_world Hc).
Defined.

Lemma run_of_no_browser_world :
  chrome_failure no_browser_world = Some (lit "chromedriver not found") /\
  main no_browser_world =
    [UpdateTask PROCESSING;
     EywaError (lit "Robot failed: " ++ lit "chromedriver not found");
     CloseTask ERROR].
Proof.
  assert (Hc : chrome_failure no_browser_world
               = Some (lit "chromedriver not found")) by reflexivity.
  split; [exact Hc|].
  exact (browser_failure_ends_the_run no_browser_world _ Hc).
Defined.

(** The parameters of the task of test_hn_custom.py never reach the
    robot: it searches for "EYWA", not for "robotics". *)
Lemma mock_task_runs_on_defaults :
  task_entry (lit "data") mock_task = None /\
  search_term_of (world_of_task mock_task budget_world) = lit "EYWA" /\
  regex_pattern_of (world_of_task mock_task budget_world) = lit "EYWA|eywa" /\
  max_results_of (world_of_task mock_task budget_world) = 10%Z /\
  check_comments_of (world_of_task mock_task budget_world) = false /\
  headless_of (world_of_task mock_task budget_world) = false /\
  main (world_of_task mock_task budget_world)
    = main (world_of_task [] budget_world).
Proof.
  assert (H : task_entry (lit "data") mock_task = None)
    by (vm_compute; reflexivity).
  split; [exact H|].
  exact (task_without_data_runs_on_defaults mock_task budget_world H).
Defined.

Lemma metadata_of_a_reported_entry :
  In (EywaReport (lit "HN scraping complete") exhausted_report)
     (main exhausted_world) /\
  In eywa_released (post_matches exhausted_report) /\
  (points eywa_released, comments eywa_released, time eywa_released,
   hn_url eywa_released)
    = (10, 4, lit "1 hour ago", Some (lit "http://hn/1")) /\
  match_type eywa_released = lit "title".
Proof.
  assert (Hr : In (EywaReport (lit "HN scraping complete") exhausted_report)
                  (main exhausted_world))
    by (vm_compute; do 3 right; left; reflexivity).
  assert (Hm : In eywa_released (post_matches exhausted_report))
    by (vm_compute; left; reflexivity).
  split; [exact Hr | split; [exact Hm | split; [reflexivity|]]].
  exact (proj1 (reported_entry_metadata exhausted_world _ _ _ Hr Hm)).
Defined.

(** A comment of 201 code points is stored with 203. *)
Example stored_text_longer_than_the_comment :
  length (comment_text long_comment) = 201 /\
  length (display_text (comment_text long_comment)) = 203.
Proof. split; vm_compute; reflexivity. Qed.

(** A matching comment without header is skipped; one without author is
    kept as "unknown". *)
Example comments_without_header_or_author :
  map user (scan_comments (lit "eywa") (lit "http://hn/1") (lit "EYWA")
              [headless_comment; anonymous_comment;
               remark "more eywa" "dave"] [])
    = [lit "unknown"; lit "dave"].
Proof. vm_compute. reflexivity. Qed.

End Replay2.
